(** * video-quality.py: a shallow embedding of [main] and its properties

    The script is one function, [main], which parses its arguments, checks
    that the external tools exist, probes the media files, validates the
    arguments, prints one FFmpeg command per distorted video, reads one CSV
    file per distorted video and prints a mean and a 5th percentile per
    quality metric.

    The embedding follows the source stage by stage.  Effects are threaded
    through a small writer/abort monad: every [print], every call of an
    external tool and every file opened is an [event] of the run's trace,
    and [exit], an uncaught exception or falling off the end of [main] is
    the run's [termination].

    Conventions.
    - Python [int] is [Z].  Python [float] is binary64, the [spec_float] of
      the Standard Library at precision 53: the subtraction of the range
      check and the division of the mean round to nearest, ties to even,
      NaN and the infinities are values, and a comparison between an
      [int] and a [float] is exact, as in Python.  Two quantities are
      written as rationals: the quarters [refWidth/4] and [refHeight/4],
      which binary64 holds exactly for sizes below 2^53
      ([is_margins_binary64]), and the product [0.05 * len], whose
      truncation is compared with the binary64 one on the lengths from 1
      to 2000 ([nthPercentileIndex_binary64]).
    - Functions of the Python standard library whose text is not part of the
      script ([float], [sum], [str.strip], [os.path], [str.replace]) are
      parameters of the development, gathered in [PyLib].
    - What the script observes of the outside world (tools, files, probe
      results, CSV rows) is a parameter too, gathered in [World]. *)

From Stdlib Require Import List String Ascii ZArith QArith Qround Lia Bool.
From Stdlib Require Import Permutation Sorted DecimalString DecimalPos.
From Stdlib Require Import FloatOps SpecFloat.
Import ListNotations.

Local Open Scope string_scope.
Local Open Scope list_scope.
Local Open Scope Z_scope.

(** ** Python values *)

(** [str(n)] and the [{n}] of an f-string, for an [int]. *)
Definition str_of_int (n : Z) : string := NilZero.string_of_int (Z.to_int n).

(** The double quote character, which the script writes escaped. *)
Definition dquote : string := String (ascii_of_nat 34) EmptyString.

(** Truth value of an optional string argument: [None] and the empty
    string are falsy. *)
Definition truthy_str (o : option string) : bool :=
  match o with
  | Some EmptyString => false
  | Some _ => true
  | None => false
  end.

(** Truth value of an optional integer argument: [None] and [0] are falsy. *)
Definition truthy_int (o : option Z) : bool :=
  match o with
  | Some n => negb (n =? 0)
  | None => false
  end.

(** ** Floats

    A Python [float] is a binary64 number: a [spec_float], with the
    operations of the Standard Library at precision 53 and maximal
    exponent 1024, which round to nearest, ties to even. *)

Definition float : Type := spec_float.

Definition float_add : float -> float -> float := SFadd prec emax.
Definition float_sub : float -> float -> float := SFsub prec emax.
Definition float_mul : float -> float -> float := SFmul prec emax.
Definition float_div : float -> float -> float := SFdiv prec emax.

(** The binary64 number nearest to an integer; an integer too large for
    a float gives an infinity. *)
Definition float_of_Z (z : Z) : float := binary_normalize prec emax z 0 false.

(** The conversion of the [int] operand of a float operation: [None] when
    it raises [OverflowError]. *)
Definition float_of_int (z : Z) : option float :=
  match float_of_Z z with
  | S754_infinity _ => None
  | x => Some x
  end.

(** The conversion of a length, which is far below the overflow. *)
Definition float_of_len (n : nat) : float := float_of_Z (Z.of_nat n).

Definition is_nan (x : float) : bool :=
  match x with
  | S754_nan => true
  | _ => false
  end.

(** The number a float stands for, on the real line with its two
    infinities; NaN stands for none. *)
Inductive ereal : Type :=
  | NegInf
  | Real (q : Q)
  | PosInf.

Definition finite_value (s : bool) (m : positive) (e : Z) : Q :=
  let n := if s then Z.neg m else Z.pos m in
  match e with
  | Z0 => inject_Z n
  | Zpos k => inject_Z (n * Z.pos (2 ^ k))
  | Zneg k => n # (2 ^ k)
  end.

Definition float_value (x : float) : option ereal :=
  match x with
  | S754_nan => None
  | S754_infinity s => Some (if s then NegInf else PosInf)
  | S754_zero _ => Some (Real 0)
  | S754_finite s m e => Some (Real (finite_value s m e))
  end.

Definition Qlt_bool (x y : Q) : bool := negb (Qle_bool y x).

Definition ereal_ltb (a b : ereal) : bool :=
  match a, b with
  | _, NegInf => false
  | NegInf, _ => true
  | PosInf, _ => false
  | Real _, PosInf => true
  | Real p, Real q => Qlt_bool p q
  end.

Definition ereal_leb (a b : ereal) : bool := negb (ereal_ltb b a).

(** [x < y] and [x <= y] on floats: false when either is NaN. *)
Definition float_ltb (x y : float) : bool :=
  match float_value x, float_value y with
  | Some a, Some b => ereal_ltb a b
  | _, _ => false
  end.

Definition float_leb (x y : float) : bool :=
  match float_value x, float_value y with
  | Some a, Some b => ereal_leb a b
  | _, _ => false
  end.

(** [p < x] and [p <= x] between an [int] and a [float]: Python compares
    the two numbers exactly, without converting the [int]. *)
Definition int_lt_float (p : Z) (x : float) : bool :=
  match float_value x with
  | Some b => ereal_ltb (Real (inject_Z p)) b
  | None => false
  end.


(** [int(x)] on a rational: truncation toward zero. *)
Definition int_of_float (x : Q) : Z := Z.quot (Qnum x) (Zpos (Qden x)).

(** *** [list.sort]

    The list is sorted in place with [<] as the only comparison.  CPython
    looks for the run at the head of the list, ascending ([not b < a] from
    one element to the next) or strictly descending (and then reversed),
    and inserts every later element into it by binary search.  This is
    the whole algorithm for a list of fewer than 64 elements; a longer
    list is cut into such runs, which are merged, and the result is the
    same list whenever no element is NaN, both sorts being stable. *)

Fixpoint run_ascending (prev : float) (l : list float)
  : list float * list float :=
  match l with
  | [] => ([], [])
  | x :: l' =>
      if float_ltb x prev then ([], l)
      else let (run, rest) := run_ascending x l' in (x :: run, rest)
  end.

Fixpoint run_descending (prev : float) (l : list float)
  : list float * list float :=
  match l with
  | [] => ([], [])
  | x :: l' =>
      if float_ltb x prev
      then let (run, rest) := run_descending x l' in (x :: run, rest)
      else ([], l)
  end.

(** [count_run], with the reversal of a descending run: the sorted head of
    the list and what follows it. *)
Definition count_run (l : list float) : list float * list float :=
  match l with
  | a :: b :: l' =>
      if float_ltb b a
      then let (run, rest) := run_descending b l' in
           (rev (a :: b :: run), rest)
      else let (run, rest) := run_ascending b l' in (a :: b :: run, rest)
  | _ => (l, [])
  end.

(** The loop of [binarysort] that looks for the place of [pivot] between
    the positions [l] and [r] of the run. *)
Fixpoint bisect (fuel : nat) (run : list float) (pivot : float) (l r : nat)
  : nat :=
  match fuel with
  | O => l
  | S fuel' =>
      let p := (l + (r - l) / 2)%nat in
      let '(l', r') :=
        if float_ltb pivot (nth p run pivot) then (l, p) else (S p, r) in
      if (l' <? r')%nat then bisect fuel' run pivot l' r' else l'
  end.

Definition binary_insert (run : list float) (pivot : float) : list float :=
  let l := bisect (List.length run) run pivot 0 (List.length run) in
  firstn l run ++ pivot :: skipn l run.

Definition binarysort (run rest : list float) : list float :=
  fold_left binary_insert rest run.

(** [samples.sort()]. *)
Definition sort (l : list float) : list float :=
  let (run, rest) := count_run l in binarysort run rest.

(** ** Arguments, library and world *)

(** The namespace built by [parser.parse_args()] (lines 59-75). *)
Record Args := {
  file : list string;
  dry_run : bool;
  reference : option string;
  position : option Z;
  duration : option Z;
  crop : option string;
  psnr : bool;
  ssim : bool;
  ms_ssim : bool;
  model : option string;
  subsample : option Z;
  threads : option Z;
  help : bool;
  full_help : bool;
  version : bool
}.

(** Standard-library functions the script calls. *)
Record PyLib := {
  (** [float(q)]: [None] when it raises [ValueError]; the result may be
      NaN or an infinity. *)
  py_float : string -> option float;
  (** [sum(samples)] on a non-empty list of floats.  Up to CPython 3.11 it
      adds from left to right; from 3.12 on it compensates the rounding
      errors of the additions. *)
  py_sum : list float -> float;
  (** [q.strip()]. *)
  py_strip : string -> string;
  (** [os.path.splitext(os.path.basename(f))[0]]. *)
  py_stem : string -> string;
  (** [f.replace(suffix, empty)], which deletes every occurrence of the
      suffix [-quality.csv]. *)
  py_unsuffix : string -> string
}.

(** What the run observes of its environment. *)
Record World := {
  (** [run(command, ...).check_returncode()] returns without raising. *)
  tool_ok : list string -> bool;
  (** [os.path.exists(path)]. *)
  path_exists : string -> bool;
  (** The three [ffprobe] queries; [None] when [check_output] or the
      conversion of its output raises. *)
  probe_length : string -> option float;
  probe_width : string -> option Z;
  probe_height : string -> option Z;
  (** The rows [csv.reader] yields for the file at that path. *)
  csv_rows : string -> list (list string)
}.

(** ** Traces and termination *)

Inductive exn : Type :=
  | TypeError
  | OverflowError
  | IndexError
  | KeyError
  | FileNotFoundError
  | ProbeError.

(** How a run stops before the end of [main]. *)
Inductive stop : Type :=
  | SysExit (arg : option string)    (* [exit()] or [exit(message)] *)
  | Raised (e : exn).                (* uncaught exception *)

Inductive termination : Type :=
  | Returned                         (* [main] returns *)
  | Stopped (s : stop).

(** Exit status of the interpreter: [exit()] and a normal return give 0;
    [exit(message)] prints the message on the error stream and gives 1, as
    does an uncaught exception. *)
Definition exit_status (t : termination) : Z :=
  match t with
  | Returned => 0
  | Stopped (SysExit None) => 0
  | Stopped (SysExit (Some _)) => 1
  | Stopped (Raised _) => 1
  end.

Inductive event : Type :=
  | PrintVersion
  | PrintHelp
  | PrintHelpFull
  | PrintHelpBottom
  | PrintVerifying (tool : string)
  | RunTool (command : list string)
  | PrintScanning
  | Probe (path : string)
  | PrintVerifyingArguments
  | PrintRangeInvalid (position duration : option Z)
  | PrintInterpretingCrop
  | PrintCropMismatch (f : string) (cw ch W H : Z)
  | PrintCommand (ffmpegCommand : list string)
  | RunFFmpeg (ffmpegCommand : list string)
  | OpenCsv (path : string)
  | PrintWarning (key : string)
  | PrintBlank
  | PrintFilename (name : string)
  | PrintSummary (key : string) (meanQuality nthPercentileValue : float)
                 (precision : Z).

Inductive outcome (A : Type) : Type :=
  | Ok (a : A)
  | Stop (t : stop).
Arguments Ok {A} a.
Arguments Stop {A} t.

Definition M (A : Type) : Type := (list event * outcome A)%type.

Definition ret {A} (a : A) : M A := ([], Ok a).

Definition bind {A B} (m : M A) (k : A -> M B) : M B :=
  match m with
  | (tr, Ok a) => let (tr', o) := k a in (tr ++ tr', o)
  | (tr, Stop t) => (tr, Stop t)
  end.

Definition emit (e : event) : M unit := ([e], Ok tt).
Definition exit_ {A} (arg : option string) : M A := ([], Stop (SysExit arg)).
Definition raise {A} (e : exn) : M A := ([], Stop (Raised e)).

Notation "x <- m ;; k" := (bind m (fun x => k))
  (at level 61, m at next level, right associativity).
Notation "m ;;; k" := (bind m (fun _ => k))
  (at level 61, right associativity).

(** A [for] loop whose body has effects only. *)
Fixpoint for_each {A} (body : A -> M unit) (xs : list A) : M unit :=
  match xs with
  | [] => ret tt
  | x :: xs' => body x ;;; for_each body xs'
  end.

(** A [for] loop that updates a variable. *)
Fixpoint for_fold {A S} (body : S -> A -> M S) (s : S) (xs : list A) : M S :=
  match xs with
  | [] => ret s
  | x :: xs' => s' <- body s x ;; for_fold body s' xs'
  end.

Definition trace_of {A} (m : M A) : list event := fst m.

(** ** The crop pattern (line 162) *)

(** The character class [[0-9]]. *)
Definition is_digit (c : ascii) : bool :=
  ((48 <=? nat_of_ascii c) && (nat_of_ascii c <=? 57))%nat.

(** The longest run of digits at the head of a string, and what follows. *)
Fixpoint span_digits (s : string) : string * string :=
  match s with
  | EmptyString => (EmptyString, EmptyString)
  | String c s' =>
      if is_digit c
      then let (d, r) := span_digits s' in (String c d, r)
      else (EmptyString, s)
  end.

(** One group [([0-9]+)]: a non-empty run of digits. *)
Definition group (s : string) : option (string * string) :=
  match span_digits s with
  | (EmptyString, _) => None
  | (d, r) => Some (d, r)
  end.

(** A literal [:]. *)
Definition colon (s : string) : option string :=
  match s with
  | String ":" r => Some r
  | _ => None
  end.

(** [pattern.match(s)] followed by [match.groups()]: the pattern is anchored
    at the start of the string only, so what follows the fourth group is
    ignored. *)
Definition pattern_match (s : string)
  : option (string * string * string * string) :=
  match group s with
  | None => None
  | Some (g1, r1) =>
  match colon r1 with
  | None => None
  | Some r1' =>
  match group r1' with
  | None => None
  | Some (g2, r2) =>
  match colon r2 with
  | None => None
  | Some r2' =>
  match group r2' with
  | None => None
  | Some (g3, r3) =>
  match colon r3 with
  | None => None
  | Some r3' =>
  match group r3' with
  | None => None
  | Some (g4, _) => Some (g1, g2, g3, g4)
  end end end end end end end.

(** [int(x)] on a run of ASCII digits.  CPython from 3.11 on refuses a run
    of more than 4300 digits; every run is converted here. *)
Definition digit_value (c : ascii) : Z := Z.of_nat (nat_of_ascii c) - 48.

Fixpoint int_digits (acc : Z) (s : string) : Z :=
  match s with
  | EmptyString => acc
  | String c s' => int_digits (10 * acc + digit_value c) s'
  end.

Definition int_of_str (s : string) : Z := int_digits 0 s.

(** ** Dictionaries

    A Python [dict] iterates in insertion order, and the script relies on
    it; a dictionary with string keys is an association list without
    duplicate keys. *)

Definition dict (V : Type) : Type := list (string * V).

Fixpoint dict_get {V} (k : string) (d : dict V) : option V :=
  match d with
  | [] => None
  | (k', v) :: d' => if String.eqb k k' then Some v else dict_get k d'
  end.

(** [d[k] = v]: replaces the value in place, or appends a new entry. *)
Fixpoint dict_set {V} (k : string) (v : V) (d : dict V) : dict V :=
  match d with
  | [] => [(k, v)]
  | (k', v') :: d' =>
      if String.eqb k k' then (k', v) :: d' else (k', v') :: dict_set k v d'
  end.

(** [d.pop(k)] for a key of [d]. *)
Fixpoint dict_pop {V} (k : string) (d : dict V) : dict V :=
  match d with
  | [] => []
  | (k', v') :: d' =>
      if String.eqb k k' then d' else (k', v') :: dict_pop k d'
  end.

(** [l.index(x)]: the position of the first occurrence, [None] when it
    raises [ValueError]. *)
Fixpoint list_index (x : string) (l : list string) : option nat :=
  match l with
  | [] => None
  | y :: l' =>
      if String.eqb x y then Some O
      else match list_index x l' with
           | Some i => Some (S i)
           | None => None
           end
  end.

(** ** Quality metrics (lines 194-202) *)

(** A value of [qualityMetrics]:
    [[command, csv_name, csv_column, accuracy]]. *)
Record Metric := {
  command : string;
  csv_name : string;
  csv_column : Z;
  accuracy : Z
}.

(** A value of [resultsDictionary]: [[column index, samples]].  The index
    is the result of [list.index], never negative. *)
Definition Result : Type := (nat * list float)%type.

(** The crop list [crop[0], ..., crop[3]]. *)
Record Crop := { c0 : Z; c1 : Z; c2 : Z; c3 : Z }.

(** ** The program *)

Section Program.

Variable lib : PyLib.
Variable w : World.
Variable args : Args.

(** *** Peripheral features (lines 78-97) *)

Definition peripheral : M unit :=
  (if version args then emit PrintVersion ;;; exit_ None else ret tt) ;;;
  (if help args
   then emit PrintHelp ;;; emit PrintHelpBottom ;;; exit_ None
   else ret tt) ;;;
  (if full_help args
   then emit PrintHelp ;;; emit PrintHelpFull ;;; emit PrintHelpBottom ;;;
        exit_ None
   else ret tt).

(** *** Tool verification (lines 100-114) *)

Definition tools : dict (list string) :=
  [ ("FFmpeg", ["ffmpeg"; "-version"]);
    ("FFprobe", ["ffprobe"; "-version"]);
    ("VMAF", ["ffmpeg"; "-filters"; "|"; "grep"; "libvmaf"]) ].

Definition verify_tools : M unit :=
  for_each
    (fun '(tool, command) =>
       emit (PrintVerifying tool) ;;;
       emit (RunTool command) ;;;
       if tool_ok w command then ret tt
       else exit_ (Some (dquote ++ tool ++ dquote ++ " not found")%string))
    tools.

(** *** Scanning media (lines 117-142) *)

(** One [ffprobe] query and the conversion of its output. *)
Definition query {A} (path : string) (answer : option A) : M A :=
  emit (Probe path) ;;;
  match answer with
  | Some a => ret a
  | None => raise ProbeError
  end.

(** The values the later stages use: the reference path and its length,
    width and height, and the widths and heights of the distorted videos. *)
Record Scan := {
  refPath : string;
  refLength : float;
  refWidth : Z;
  refHeight : Z;
  distLength : list float;
  distWidth : list Z;
  distHeight : list Z
}.

Definition scan_media : M Scan :=
  emit PrintScanning ;;;
  match reference args with
  | None => raise TypeError (* [os.path.exists(None)] *)
  | Some r =>
      (if path_exists w r then ret tt
       else exit_ (Some ("Error, reference video file " ++ r
                         ++ " does not exist")%string)) ;;;
      for_each
        (fun f =>
           if path_exists w f then ret tt
           else exit_ (Some ("Error, distorted video file " ++ f
                             ++ " does not exist")%string))
        (file args) ;;;
      rl <- query r (probe_length w r) ;;
      rw <- query r (probe_width w r) ;;
      rh <- query r (probe_height w r) ;;
      d <- for_fold
             (fun '(dl, dw, dh) f =>
                l <- query f (probe_length w f) ;;
                W <- query f (probe_width w f) ;;
                H <- query f (probe_height w f) ;;
                ret (dl ++ [l], dw ++ [W], dh ++ [H]))
             ([], [], []) (file args) ;;
      let '(dl, dw, dh) := d in
      ret {| refPath := r; refLength := rl; refWidth := rw; refHeight := rh;
             distLength := dl; distWidth := dw; distHeight := dh |}
  end.

(** *** Argument verification (lines 145-209) *)

(** Lines 150-154.  The chained comparison evaluates [0 < args.position]
    first, and [refLength - args.duration] only when that holds; either
    raises [TypeError] on [None].  The subtraction converts the duration
    to a float, which raises [OverflowError] when it is too large, and
    rounds the difference; the comparison of the position with the
    difference is exact. *)
Definition range_invalid : M unit :=
  emit (PrintRangeInvalid (position args) (duration args)) ;;; exit_ None.

Definition check_range (refLength : float) : M unit :=
  match position args with
  | None => raise TypeError
  | Some p =>
      if 0 <? p then
        match duration args with
        | None => raise TypeError
        | Some d =>
            match float_of_int d with
            | None => raise OverflowError
            | Some fd =>
                if int_lt_float p (float_sub refLength fd)
                then ret tt
                else range_invalid
            end
        end
      else range_invalid
  end.

(** Line 167: the four values are small enough to be margins.  The
    quarters are written as rationals; the interpreter holds them in
    binary64, which is exact for sizes below 2^53 ([f64_is_margins]). *)
Definition is_margins (refWidth refHeight : Z) (c : Crop) : bool :=
  let max_x := (inject_Z refWidth / inject_Z 4)%Q in
  let max_y := (inject_Z refHeight / inject_Z 4)%Q in
  Qle_bool (inject_Z (c2 c)) max_x && Qle_bool (inject_Z (c3 c)) max_x
  && Qle_bool (inject_Z (c0 c)) max_y && Qle_bool (inject_Z (c1 c)) max_y.

(** Lines 169-176: [TOP:BOTTOM:LEFT:RIGHT] to [WIDTH:HEIGHT:X:Y]. *)
Definition from_margins (refWidth refHeight : Z) (c : Crop) : Crop :=
  let width := refWidth - (c2 c + c3 c) in
  let height := refHeight - (c0 c + c1 c) in
  let x := c2 c in
  let y := c0 c in
  {| c0 := width; c1 := height; c2 := x; c3 := y |}.

Definition crop_string (c : Crop) : string :=
  (str_of_int (c0 c) ++ ":" ++ str_of_int (c1 c) ++ ":"
   ++ str_of_int (c2 c) ++ ":" ++ str_of_int (c3 c))%string.

(** Lines 181-187. *)
Definition check_mismatch (c : Crop) (distWidth distHeight : list Z)
  : M unit :=
  for_each
    (fun '(f, (W, H)) =>
       if negb (c0 c =? W) || negb (c1 c =? H)
       then emit (PrintCropMismatch f (c0 c) (c1 c) W H) ;;; exit_ None
       else ret tt)
    (combine (file args) (combine distWidth distHeight)).

(** Lines 156-187: the crop string handed to the filter graph. *)
Definition reconcile (refWidth refHeight : Z) (distWidth distHeight : list Z)
  : M string :=
  let cropString :=
    (str_of_int refWidth ++ ":" ++ str_of_int refHeight ++ ":0:0")%string in
  if truthy_str (crop args) then
    let raw := match crop args with Some s => s | None => EmptyString end in
    match pattern_match raw with
    | Some (g0, g1, g2, g3) =>
        let c := {| c0 := int_of_str g0; c1 := int_of_str g1;
                    c2 := int_of_str g2; c3 := int_of_str g3 |} in
        c <- (if is_margins refWidth refHeight c
              then emit PrintInterpretingCrop ;;;
                   ret (from_margins refWidth refHeight c)
              else ret c) ;;
        check_mismatch c distWidth distHeight ;;;
        ret (crop_string c)
    | None => exit_ (Some ("Invalid crop: " ++ raw)%string)
    end
  else ret cropString.

(** Lines 189-192. *)
Definition check_model : M unit :=
  if truthy_str (model args) then
    let m := match model args with Some s => s | None => EmptyString end in
    if path_exists w m then ret tt
    else exit_ (Some ("Model file does not exists: " ++ m)%string)
  else ret tt.

(** Lines 194-202. *)
Definition qualityMetrics : dict Metric :=
  [("VMAF", {| command := EmptyString; csv_name := "vmaf";
               csv_column := 0; accuracy := 2 |})]
  ++ (if psnr args
      then [("PSNR", {| command := ":psnr=1"; csv_name := "psnr";
                        csv_column := 0; accuracy := 2 |})]
      else [])
  ++ (if ssim args
      then [("SSIM", {| command := ":ssim=1"; csv_name := "ssim";
                        csv_column := 0; accuracy := 4 |})]
      else [])
  ++ (if ms_ssim args
      then [("MS-SSIM", {| command := ":ms_ssim=1"; csv_name := "ms_ssim";
                           csv_column := 0; accuracy := 4 |})]
      else []).

(** Lines 204-209. *)
Definition output_files : M (list string) :=
  for_fold
    (fun vmafOut f =>
       let out := (py_stem lib f ++ "-quality.csv")%string in
       if negb (dry_run args) && path_exists w out
       then exit_ (Some ("Output file already exists: " ++ out)%string)
       else ret (vmafOut ++ [out]))
    [] (file args).

(** *** FFmpeg command (lines 212-283) *)

(** Lines 227-241. *)
Definition vmafFilterString (out : string) : string :=
  let s := ("[dist][ref]libvmaf=log_fmt=csv:log_path=" ++ out)%string in
  let s := if truthy_str (model args)
           then (s ++ ":model_path="
                 ++ match model args with Some m => m | None => EmptyString end
                )%string
           else s in
  let s := if truthy_int (subsample args)
           then (s ++ ":n_subsample="
                 ++ match subsample args with
                    | Some n => str_of_int n
                    | None => EmptyString
                    end)%string
           else s in
  let s := if truthy_int (threads args)
           then (s ++ ":n_threads="
                 ++ match threads args with
                    | Some n => str_of_int n
                    | None => EmptyString
                    end)%string
           else s in
  fold_left
    (fun s '(key, value) =>
       if negb (String.eqb key "VMAF") then (s ++ command value)%string
       else s)
    qualityMetrics s.

(** Lines 222-244. *)
Definition filterString (cropString out : string) : string :=
  let distortedVideoPrep := "[0:v]setpts=PTS-STARTPTS[dist]; " in
  let referenceVideoPrep :=
    ("[1:v]crop=" ++ cropString ++ ",setpts=PTS-STARTPTS[ref]; ")%string in
  (distortedVideoPrep ++ referenceVideoPrep ++ vmafFilterString out)%string.

(** Lines 251-272. *)
Definition ffmpegCommand (refPath cropString f out : string) : list string :=
  let distortedInput := ["-i"; f] in
  let referenceInput :=
    (if truthy_int (position args)
     then ["-ss"; match position args with
                  | Some p => str_of_int p
                  | None => EmptyString
                  end]
     else [])
    ++ (if truthy_int (duration args)
        then ["-t"; match duration args with
                    | Some d => str_of_int d
                    | None => EmptyString
                    end]
        else [])
    ++ ["-i"; refPath] in
  let filterInput := ["-filter_complex"; filterString cropString out] in
  let outputCommands := ["-f"; "null"; "-"] in
  ["ffmpeg"; "-hide_banner"; "-v"; "fatal"; "-stats"]
  ++ distortedInput ++ referenceInput ++ filterInput ++ outputCommands.

(** Lines 216-283.  The command is printed between two blank lines; the
    lines that would skip it on a dry run, or run it otherwise, are
    commented out in the script (lines 280-283), so nothing else happens. *)
Definition vmaf_calculation (refPath cropString : string)
           (vmafOut : list string) : M unit :=
  for_each
    (fun '(f, out) =>
       emit PrintBlank ;;;
       emit (PrintCommand (ffmpegCommand refPath cropString f out)) ;;;
       emit PrintBlank)
    (combine (file args) vmafOut).

(** *** Average quality metrics (lines 285-345) *)

(** Lines 291-293. *)
Definition empty_results : dict Result :=
  map (fun '(key, _) => (key, (O, []))) qualityMetrics.

(** Lines 299-303: the header row, empty when the file has no row. *)
Definition header_row (rows : list (list string)) : list string :=
  match rows with
  | [] => []
  | row :: _ => row
  end.

(** Lines 305-312: the column of each metric; a metric whose column is not
    in the header is reported and noted for removal. *)
Definition find_columns (columnNames : list string) (rd : dict Result)
  : M (dict Result * list string) :=
  for_fold
    (fun '(rd, toRemove) '(key, value) =>
       match dict_get key qualityMetrics with
       | None => raise KeyError
       | Some m =>
           match list_index (csv_name m) columnNames with
           | Some i => ret (dict_set key (i, snd value) rd, toRemove)
           | None =>
               emit (PrintWarning key) ;;; ret (rd, toRemove ++ [key])
           end
       end)
    (rd, []) rd.

(** Lines 314-316. *)
Definition remove_metrics (toRemove : list string) (rd : dict Result)
  : dict Result :=
  fold_left (fun rd i => dict_pop i rd) toRemove rd.

(** Lines 320-326 for one row: the cell is read outside the [try], its
    conversion inside. *)
Fixpoint read_row (row : list string) (rd : dict Result)
  : M (dict Result) :=
  match rd with
  | [] => ret []
  | (key, value) :: rd' =>
      match nth_error row (fst value) with
      | None => raise IndexError
      | Some cell =>
          let q := py_strip lib cell in
          let value' := match py_float lib q with
                        | Some x => (fst value, snd value ++ [x])
                        | None => value
                        end in
          rest <- read_row row rd' ;;
          ret ((key, value') :: rest)
      end
  end.

(** Lines 318-326. *)
Definition read_rows (rows : list (list string)) (rd : dict Result)
  : M (dict Result) :=
  for_fold (fun rd row => read_row row rd) rd rows.

(** Lines 290-329 for one CSV file.  A file that exists is taken to open
    and to decode; of the errors of [open] the missing file is the one
    that is modelled. *)
Definition aggregate_file (f : string) : M (dict Result) :=
  (if path_exists w f then emit (OpenCsv f) else raise FileNotFoundError) ;;;
  let rows := csv_rows w f in
  let columnNames := header_row rows in
  found <- find_columns columnNames empty_results ;;
  let '(rd, toRemove) := found in
  read_rows (tl rows) (remove_metrics toRemove rd).

(** Lines 288-329. *)
Definition aggregate (vmafOut : list string) : M (dict (dict Result)) :=
  for_fold
    (fun fileDictionary f =>
       rd <- aggregate_file f ;;
       ret (dict_set (py_unsuffix lib f) rd fileDictionary))
    [] vmafOut.

(** Line 340. *)
Definition nthPercentileIndex (n : nat) : Z :=
  int_of_float ((5 # 100) * inject_Z (Z.of_nat n))%Q.

(** Lines 335-345 for one metric of one file.  The mean is the float
    [sum] of the list as the sort left it, divided in binary64 by the
    length. *)
Definition report_metric (key : string) (value : Result) : M unit :=
  let samples := snd value in
  if (List.length samples =? 0)%nat then ret tt
  else
    let sorted := sort samples in
    let meanQuality :=
      float_div (py_sum lib sorted) (float_of_len (List.length sorted)) in
    let i := nthPercentileIndex (List.length sorted) in
    match nth_error sorted (Z.to_nat i) with
    | None => raise IndexError
    | Some nthPercentileValue =>
        match dict_get key qualityMetrics with
        | None => raise KeyError
        | Some m =>
            emit (PrintSummary key meanQuality nthPercentileValue
                               (accuracy m))
        end
    end.

(** Lines 331-345. *)
Definition report (fileDictionary : dict (dict Result)) : M unit :=
  emit PrintBlank ;;;
  for_each
    (fun '(filename, results) =>
       emit (PrintFilename filename) ;;;
       for_each (fun '(key, value) => report_metric key value) results)
    fileDictionary.

(** *** [main] (lines 55-351) *)

Definition main_body : M unit :=
  peripheral ;;;
  verify_tools ;;;
  s <- scan_media ;;
  emit PrintVerifyingArguments ;;;
  check_range (refLength s) ;;;
  cropString <- reconcile (refWidth s) (refHeight s)
                          (distWidth s) (distHeight s) ;;
  check_model ;;;
  vmafOut <- output_files ;;
  vmaf_calculation (refPath s) cropString vmafOut ;;;
  fileDictionary <- aggregate vmafOut ;;
  report fileDictionary ;;;
  if dry_run args then exit_ None else ret tt.

Definition main : list event * termination :=
  match main_body with
  | (tr, Ok _) => (tr, Returned)
  | (tr, Stop t) => (tr, Stopped t)
  end.

End Program.

(** ** Binary64 counterparts

    Line 340 as the interpreter computes it: the literal [0.05] is the
    binary64 number nearest to it, the length is converted to binary64,
    the product is rounded to nearest, and [int] truncates. *)

Definition f64_trunc (x : float) : Z :=
  match x with
  | S754_finite s m e =>
      let v := if 0 <=? e then Z.pos m * 2 ^ e else Z.pos m / 2 ^ (- e) in
      if s then - v else v
  | _ => 0
  end.

(** The literal [0.05], [0x1.999999999999ap-5]. *)
Definition f64_0_05 : float := S754_finite false 7205759403792794 (-57).

Definition f64_nthPercentileIndex (n : nat) : Z :=
  f64_trunc (float_mul f64_0_05 (float_of_len n)).



(** ** Vocabulary of the properties *)

(** An event that builds or executes an FFmpeg command. *)
Definition is_plan (e : event) : bool :=
  match e with
  | PrintCommand _ | RunFFmpeg _ => true
  | _ => false
  end.

(** An event that executes an FFmpeg command. *)
Definition is_run (e : event) : bool :=
  match e with
  | RunFFmpeg _ => true
  | _ => false
  end.

(** A computation none of whose events satisfies [P]. *)
Definition silent {A} (P : event -> bool) (m : M A) : Prop :=
  Forall (fun e => P e = false) (fst m).

(** The order of the extended real line. *)
Definition ereal_le (a b : ereal) : Prop :=
  match a, b with
  | NegInf, _ => True
  | _, PosInf => True
  | Real p, Real q => (p <= q)%Q
  | _, _ => False
  end.

(** A float that is a number, and the order of numbers. *)
Definition number (x : float) : Prop := is_nan x = false.

Definition float_le (x y : float) : Prop := float_leb x y = true.

(** The conversion of the integer to a float overflows. *)
Definition overflows (z : Z) : bool :=
  match float_of_int z with
  | Some _ => false
  | None => true
  end.

(** The integer [p] is below the number a float stands for. *)
Definition below (p : Z) (x : float) : Prop :=
  match float_value x with
  | Some PosInf => True
  | Some (Real q) => (inject_Z p < q)%Q
  | _ => False
  end.

(** A non-empty run of digits. *)
Fixpoint all_digits (s : string) : bool :=
  match s with
  | EmptyString => true
  | String c s' => is_digit c && all_digits s'
  end.

Definition digit_run (s : string) : Prop :=
  s <> EmptyString /\ all_digits s = true.


(** The string does not begin with a digit. *)
Definition no_digit_ahead (s : string) : Prop :=
  match s with
  | EmptyString => True
  | String c _ => is_digit c = false
  end.

Section Stages.

Variable lib : PyLib.
Variable w : World.
Variable args : Args.

(** The run up to the range check (lines 55-148). *)
Definition before_range : M Scan :=
  peripheral args ;;;
  verify_tools w ;;;
  s <- scan_media w args ;;
  emit PrintVerifyingArguments ;;;
  ret s.

(** The run up to the crop conversion (lines 55-154). *)
Definition before_reconcile : M Scan :=
  s <- before_range ;;
  check_range args (refLength s) ;;;
  ret s.

(** The run up to the aggregation (lines 55-283). *)
Definition before_aggregate : M (list string) :=
  s <- before_reconcile ;;
  cropString <- reconcile args (refWidth s) (refHeight s)
                          (distWidth s) (distHeight s) ;;
  check_model w args ;;;
  vmafOut <- output_files lib w args ;;
  vmaf_calculation args (refPath s) cropString vmafOut ;;;
  ret vmafOut.

(** The run from the aggregation on (lines 285-351). *)
Definition from_aggregate (vmafOut : list string) : M unit :=
  fileDictionary <- aggregate lib w args vmafOut ;;
  report lib args fileDictionary ;;;
  if dry_run args then exit_ None else ret tt.

(** The run from the crop conversion on (lines 156-351). *)
Definition from_reconcile (s : Scan) : M unit :=
  cropString <- reconcile args (refWidth s) (refHeight s)
                          (distWidth s) (distHeight s) ;;
  check_model w args ;;;
  vmafOut <- output_files lib w args ;;
  vmaf_calculation args (refPath s) cropString vmafOut ;;;
  from_aggregate vmafOut.

(** The run from the range check on (lines 150-351). *)
Definition from_range (s : Scan) : M unit :=
  check_range args (refLength s) ;;; from_reconcile s.

(** The crop list after lines 165-166, for the four groups of a match. *)
Definition parsed_crop (g : string * string * string * string) : Crop :=
  let '(g0, g1, g2, g3) := g in
  {| c0 := int_of_str g0; c1 := int_of_str g1;
     c2 := int_of_str g2; c3 := int_of_str g3 |}.

(** The crop list after lines 165-176. *)
Definition resolved_crop (refWidth refHeight : Z)
           (g : string * string * string * string) : Crop :=
  let c := parsed_crop g in
  if is_margins refWidth refHeight c
  then from_margins refWidth refHeight c
  else c.

(** The numeric samples of column [i]: one per row whose cell converts. *)
Definition cell_sample (i : nat) (row : list string) : list float :=
  match nth_error row i with
  | Some cell =>
      match py_float lib (py_strip lib cell) with
      | Some x => [x]
      | None => []
      end
  | None => []
  end.

Definition column_samples (i : nat) (rows : list (list string))
  : list float :=
  flat_map (cell_sample i) rows.

(** The requested metrics whose column is not in the header, in order. *)
Definition missing_metrics (columnNames : list string) (qm : dict Metric)
  : list string :=
  flat_map
    (fun '(key, m) =>
       match list_index (csv_name m) columnNames with
       | Some _ => []
       | None => [key]
       end)
    qm.

(** The requested metrics whose column is in the header, with its index. *)
Definition located_metrics (columnNames : list string) (qm : dict Metric)
  : dict Result :=
  flat_map
    (fun '(key, m) =>
       match list_index (csv_name m) columnNames with
       | Some i => [(key, (i, []))]
       | None => []
       end)
    qm.

(** The results dictionary after lines 305-312: every requested metric,
    with the index of its column when the header has it. *)
Definition indexed_metrics (columnNames : list string) (qm : dict Metric)
  : dict Result :=
  map
    (fun '(key, m) =>
       (key, (match list_index (csv_name m) columnNames with
              | Some i => i
              | None => O
              end, [])))
    qm.

(** Every column index of the dictionary is inside the row. *)
Definition row_fits (row : list string) (rd : dict Result) : bool :=
  forallb (fun e => (fst (snd e) <? List.length row)%nat) rd.

(** The dictionary with the numeric cells of some rows appended. *)
Definition add_rows (rows : list (list string)) (rd : dict Result)
  : dict Result :=
  map (fun e => (fst e, (fst (snd e),
                         snd (snd e) ++ column_samples (fst (snd e)) rows)))
      rd.

End Stages.

(** ** Vocabulary of the further properties *)

(** The events of a tool verification in which every tool answers. *)
Definition tools_trace : list event :=
  [ PrintVerifying "FFmpeg"; RunTool ["ffmpeg"; "-version"];
    PrintVerifying "FFprobe"; RunTool ["ffprobe"; "-version"];
    PrintVerifying "VMAF";
    RunTool ["ffmpeg"; "-filters"; "|"; "grep"; "libvmaf"] ].

(** The FFmpeg commands printed, in order. *)
Definition commands_of (tr : list event) : list (list string) :=
  flat_map (fun e => match e with PrintCommand c => [c] | _ => [] end) tr.

(** An event of the aggregation or of the report. *)
Definition is_report (e : event) : bool :=
  match e with
  | OpenCsv _ | PrintWarning _ | PrintFilename _ | PrintSummary _ _ _ _ =>
      true
  | _ => false
  end.

(** An event that touches a media file or a CSV file. *)
Definition is_probe (e : event) : bool :=
  match e with
  | Probe _ | OpenCsv _ => true
  | _ => false
  end.

Section FurtherStages.

Variable lib : PyLib.
Variable w : World.
Variable args : Args.

(** The name of the CSV file of a distorted video (line 207). *)
Definition quality_csv (f : string) : string :=
  (py_stem lib f ++ "-quality.csv")%string.

(** The run up to the model check (lines 55-187). *)
Definition before_model : M (Scan * string) :=
  s <- before_reconcile w args ;;
  cropString <- reconcile args (refWidth s) (refHeight s)
                          (distWidth s) (distHeight s) ;;
  ret (s, cropString).

(** The run up to the check of the output files (lines 55-202). *)
Definition before_output : M (Scan * string) :=
  x <- before_model ;;
  check_model w args ;;;
  ret x.

(** The run from the check of the output files on (lines 204-351). *)
Definition from_output (x : Scan * string) : M unit :=
  vmafOut <- output_files lib w args ;;
  vmaf_calculation args (refPath (fst x)) (snd x) vmafOut ;;;
  from_aggregate lib w args vmafOut.

(** The options of the metric stage, in the order the script appends
    them. *)
Definition filter_options : string :=
  ((match model args with
    | Some (String c m) => ":model_path=" ++ String c m
    | _ => EmptyString
    end)
   ++ (match subsample args with
       | Some n => if Z.eqb n 0 then EmptyString
                   else ":n_subsample=" ++ str_of_int n
       | None => EmptyString
       end)
   ++ (match threads args with
       | Some n => if Z.eqb n 0 then EmptyString
                   else ":n_threads=" ++ str_of_int n
       | None => EmptyString
       end)
   ++ (if psnr args then ":psnr=1" else EmptyString)
   ++ (if ssim args then ":ssim=1" else EmptyString)
   ++ (if ms_ssim args then ":ms_ssim=1" else EmptyString))%string.

End FurtherStages.

(** ** Example inputs *)

(** An instance of the library, enough for the examples: [float] accepts
    the runs of digits and [nan], [sum] adds from left to right, cells
    carry no blanks, paths have no directory and one dot, and the CSV
    suffix occurs once. *)
Definition ex_lib : PyLib := {|
  py_float := fun s =>
    match s with
    | EmptyString => None
    | _ => if String.eqb s "nan" then Some S754_nan
           else if all_digits s then Some (float_of_Z (int_of_str s))
           else None
    end;
  py_sum := fun l => fold_left float_add l (S754_zero false);
  py_strip := fun s => s;
  py_stem := fun f =>
    match index 0 "." f with
    | Some n => substring 0 n f
    | None => f
    end;
  py_unsuffix := fun f =>
    match index 0 "-quality.csv" f with
    | Some n => substring 0 n f
    | None => f
    end
|}.

(** A world where every tool and every file exists, with one reference
    video [ref.mkv], every other video of one size, and one CSV content;
    the length of the videos is a whole number of seconds. *)
Definition ex_world (refLen : Z) (refW refH distW distH : Z)
           (rows : list (list string)) : World := {|
  tool_ok := fun _ => true;
  path_exists := fun _ => true;
  probe_length := fun _ => Some (float_of_Z refLen);
  probe_width := fun f => Some (if String.eqb f "ref.mkv" then refW else distW);
  probe_height := fun f => Some (if String.eqb f "ref.mkv" then refH else distH);
  csv_rows := fun _ => rows
|}.

(** A dry run on one distorted video [d1.mp4]. *)
Definition ex_args (pos dur : option Z) (crop : option string) (ssim : bool)
  : Args := {|
  file := ["d1.mp4"];
  dry_run := true;
  reference := Some "ref.mkv";
  position := pos;
  duration := dur;
  crop := crop;
  psnr := false;
  ssim := ssim;
  ms_ssim := false;
  model := None;
  subsample := None;
  threads := None;
  help := false;
  full_help := false;
  version := false
|}.

(** The same world before any CSV file has been written. *)
Definition ex_world_fresh (refLen : Z) (refW refH distW distH : Z) : World := {|
  tool_ok := fun _ => true;
  path_exists := fun f => String.eqb f "ref.mkv" || String.eqb f "d1.mp4";
  probe_length := fun _ => Some (float_of_Z refLen);
  probe_width := fun f => Some (if String.eqb f "ref.mkv" then refW else distW);
  probe_height := fun f => Some (if String.eqb f "ref.mkv" then refH else distH);
  csv_rows := fun _ => []
|}.

(** A run that is not a dry run, on one distorted video [d1.mp4]. *)
Definition ex_args_run (pos dur : option Z) : Args := {|
  file := ["d1.mp4"];
  dry_run := false;
  reference := Some "ref.mkv";
  position := pos;
  duration := dur;
  crop := None;
  psnr := false;
  ssim := false;
  ms_ssim := false;
  model := None;
  subsample := None;
  threads := None;
  help := false;
  full_help := false;
  version := false
|}.

Definition ex_rows : list (list string) :=
  [ ["Frame"; "vmaf"]; ["0"; "90"]; ["1"; "n/a"]; ["2"; "80"] ].


(** A request for the help text, with nothing else supplied. *)
Definition ex_args_help : Args := {|
  file := ["d1.mp4"];
  dry_run := false;
  reference := None;
  position := None;
  duration := None;
  crop := None;
  psnr := false;
  ssim := false;
  ms_ssim := false;
  model := None;
  subsample := None;
  threads := None;
  help := true;
  full_help := true;
  version := false
|}.

(** A world without FFprobe. *)
Definition ex_world_no_ffprobe : World := {|
  tool_ok := fun c =>
    match c with
    | "ffprobe" :: _ => false
    | _ => true
    end;
  path_exists := fun _ => true;
  probe_length := fun _ => None;
  probe_width := fun _ => None;
  probe_height := fun _ => None;
  csv_rows := fun _ => []
|}.

(** A world where the reference video is the only file. *)
Definition ex_world_no_video : World := {|
  tool_ok := fun _ => true;
  path_exists := fun f => String.eqb f "ref.mkv";
  probe_length := fun _ => None;
  probe_width := fun _ => None;
  probe_height := fun _ => None;
  csv_rows := fun _ => []
|}.

(** A run with a model file, not a dry run. *)
Definition ex_args_model (m : string) : Args := {|
  file := ["d1.mp4"];
  dry_run := false;
  reference := Some "ref.mkv";
  position := Some 1;
  duration := Some 1;
  crop := None;
  psnr := false;
  ssim := false;
  ms_ssim := false;
  model := Some m;
  subsample := None;
  threads := None;
  help := false;
  full_help := false;
  version := false
|}.

(** A CSV whose second data row has the cell [nan]. *)
Definition ex_rows_nan : list (list string) :=
  [ ["Frame"; "vmaf"]; ["0"; "3"]; ["1"; "nan"]; ["2"; "1"]; ["3"; "2"] ].


(** Every option of the metric stage at once. *)
Definition ex_args_full : Args := {|
  file := ["d1.mp4"];
  dry_run := true;
  reference := Some "ref.mkv";
  position := Some 1;
  duration := Some 1;
  crop := None;
  psnr := true;
  ssim := true;
  ms_ssim := true;
  model := Some "m.json";
  subsample := Some 5;
  threads := Some 0;
  help := false;
  full_help := false;
  version := false
|}.

(** * Properties *)

(** ** The monad *)

Lemma bind_ret_l {A B} (a : A) (k : A -> M B) : bind (ret a) k = k a.
Proof. unfold bind, ret. destruct (k a); reflexivity. Qed.

Lemma bind_assoc {A B C} (m : M A) (k : A -> M B) (h : B -> M C) :
  bind (bind m k) h = bind m (fun a => bind (k a) h).
Proof.
  destruct m as [tr [a|t]]; simpl; [|reflexivity].
  destruct (k a) as [tr1 [b|t]]; simpl; [|reflexivity].
  destruct (h b) as [tr2 o]. now rewrite app_assoc.
Qed.

Lemma bind_ext {A B} (m : M A) (k k' : A -> M B) :
  (forall a, k a = k' a) -> bind m k = bind m k'.
Proof. intros E. destruct m as [tr [a|t]]; simpl; now rewrite ?E. Qed.

Lemma bind_ok {A B} (m : M A) (k : A -> M B) tr a :
  m = (tr, Ok a) -> bind m k = (tr ++ fst (k a), snd (k a)).
Proof. intros ->. simpl. now destruct (k a). Qed.

Lemma bind_stop {A B} (m : M A) (k : A -> M B) tr t :
  m = (tr, Stop t) -> bind m k = (tr, Stop t).
Proof. now intros ->. Qed.

(** ** Silence *)

Section Silence.

Variable P : event -> bool.

Lemma silent_ret {A} (a : A) : silent P (ret a).
Proof. constructor. Qed.

Lemma silent_exit {A} arg : silent P (@exit_ A arg).
Proof. constructor. Qed.

Lemma silent_raise {A} e : silent P (@raise A e).
Proof. constructor. Qed.

Lemma silent_emit e : P e = false -> silent P (emit e).
Proof. intros H. repeat constructor. exact H. Qed.

Lemma silent_bind {A B} (m : M A) (k : A -> M B) :
  silent P m -> (forall a, silent P (k a)) -> silent P (bind m k).
Proof.
  unfold silent. destruct m as [tr [a|t]]; simpl; intros Hm Hk; [|exact Hm].
  specialize (Hk a). destruct (k a) as [tr' o]. simpl in *.
  apply Forall_app. now split.
Qed.

Lemma silent_for_each {A} (body : A -> M unit) xs :
  (forall x, silent P (body x)) -> silent P (for_each body xs).
Proof.
  intros H. induction xs as [|x xs IH]; simpl.
  - apply silent_ret.
  - apply silent_bind; auto.
Qed.

Lemma silent_for_fold {A S} (body : S -> A -> M S) xs :
  (forall s x, silent P (body s x)) -> forall s, silent P (for_fold body s xs).
Proof.
  intros H. induction xs as [|x xs IH]; simpl; intros s.
  - apply silent_ret.
  - apply silent_bind; auto.
Qed.

End Silence.

Ltac silence_by tac :=
  repeat first
    [ apply silent_ret | apply silent_exit | apply silent_raise
    | apply silent_emit; solve [tac]
    | apply silent_bind | apply silent_for_each | apply silent_for_fold
    | intro
    | match goal with
      | |- silent _ (match ?x with _ => _ end) => destruct x
      | |- silent _ ((match ?x with _ => _ end) _) => destruct x
      end
    | progress cbv beta zeta ].

Ltac silence := silence_by ltac:(reflexivity).

(** ** The stages of [main] *)

Section StageLemmas.

Variable lib : PyLib.
Variable w : World.
Variable args : Args.

Lemma main_body_from_range :
  main_body lib w args = s <- before_range w args ;; from_range lib w args s.
Proof.
  unfold main_body, before_range, from_range, from_reconcile, from_aggregate.
  rewrite ?bind_assoc. apply bind_ext; intros _.
  rewrite ?bind_assoc. apply bind_ext; intros _.
  rewrite ?bind_assoc. apply bind_ext; intros s.
  rewrite ?bind_assoc. apply bind_ext; intros _.
  now rewrite bind_ret_l.
Qed.

Lemma main_body_from_reconcile :
  main_body lib w args
  = s <- before_reconcile w args ;; from_reconcile lib w args s.
Proof.
  rewrite main_body_from_range. unfold before_reconcile, from_range.
  rewrite ?bind_assoc. apply bind_ext; intros s.
  rewrite ?bind_assoc. apply bind_ext; intros _.
  now rewrite bind_ret_l.
Qed.

Lemma main_body_from_aggregate :
  main_body lib w args
  = v <- before_aggregate lib w args ;; from_aggregate lib w args v.
Proof.
  rewrite main_body_from_reconcile. unfold before_aggregate, from_reconcile.
  rewrite ?bind_assoc. apply bind_ext; intros s.
  rewrite ?bind_assoc. apply bind_ext; intros c.
  rewrite ?bind_assoc. apply bind_ext; intros _.
  rewrite ?bind_assoc. apply bind_ext; intros v.
  rewrite ?bind_assoc. apply bind_ext; intros _.
  now rewrite bind_ret_l.
Qed.

(** [main] stops where its body stops. *)
Lemma main_stops tr t :
  main_body lib w args = (tr, Stop t) -> main lib w args = (tr, Stopped t).
Proof. unfold main. now intros ->. Qed.

Lemma main_trace : fst (main lib w args) = fst (main_body lib w args).
Proof. unfold main. now destruct (main_body lib w args) as [tr [a|t]]. Qed.

Lemma silent_before_range P :
  P PrintVersion = false -> P PrintHelp = false -> P PrintHelpFull = false ->
  P PrintHelpBottom = false -> P PrintScanning = false ->
  P PrintVerifyingArguments = false ->
  (forall t, P (PrintVerifying t) = false) ->
  (forall c, P (RunTool c) = false) ->
  (forall f, P (Probe f) = false) ->
  silent P (before_range w args).
Proof.
  intros. unfold before_range, peripheral, verify_tools, scan_media, query.
  silence_by ltac:(auto).
Qed.

Lemma silent_check_range P L :
  (forall p d, P (PrintRangeInvalid p d) = false) ->
  silent P (check_range args L).
Proof.
  intros. unfold check_range, range_invalid.
  silence_by ltac:(auto).
Qed.

Lemma plan_silent_before_range : silent is_plan (before_range w args).
Proof. apply silent_before_range; reflexivity. Qed.

Lemma plan_silent_before_reconcile : silent is_plan (before_reconcile w args).
Proof.
  unfold before_reconcile. apply silent_bind.
  - apply plan_silent_before_range.
  - intros s. apply silent_bind; [apply silent_check_range; reflexivity|].
    intros; apply silent_ret.
Qed.

Lemma plan_silent_reconcile rw rh dw dh :
  silent is_plan (reconcile args rw rh dw dh).
Proof. unfold reconcile, check_mismatch. silence. Qed.

End StageLemmas.

(** ** Inversion of successful computations *)

Lemma bind_ok_inv {A B} (m : M A) (k : A -> M B) tr b :
  bind m k = (tr, Ok b) ->
  exists tr1 a tr2, m = (tr1, Ok a) /\ k a = (tr2, Ok b) /\ tr = tr1 ++ tr2.
Proof.
  destruct m as [tr1 [a|t]]; simpl; [|discriminate].
  destruct (k a) as [tr2 o] eqn:E. intros [= <- ->].
  exists tr1, a, tr2. now rewrite E.
Qed.

Lemma query_ok_inv {A} path (answer : option A) tr a :
  query path answer = (tr, Ok a) -> answer = Some a.
Proof.
  unfold query. destruct answer as [x|]; simpl; [|discriminate].
  now intros [= _ ->].
Qed.

Section ScanLemmas.

Variable w : World.
Variable args : Args.

(** The loop of lines 139-142 appends the probed sizes, file by file. *)
Lemma probe_loop_ok files :
  forall dl dw dh tr dl' dw' dh',
    for_fold
      (fun '(dl, dw, dh) f =>
         l <- query f (probe_length w f) ;;
         W <- query f (probe_width w f) ;;
         H <- query f (probe_height w f) ;;
         ret (dl ++ [l], dw ++ [W], dh ++ [H]))
      (dl, dw, dh) files = (tr, Ok (dl', dw', dh')) ->
    exists ew eh,
      dw' = dw ++ ew /\ dh' = dh ++ eh /\
      Forall2 (fun f W => probe_width w f = Some W) files ew /\
      Forall2 (fun f H => probe_height w f = Some H) files eh.
Proof.
  induction files as [|f files IH]; simpl; intros dl dw dh tr dl' dw' dh' E.
  - injection E as _ <- <- <-. exists [], []. now rewrite !app_nil_r.
  - apply bind_ok_inv in E as (tr1 & [[dl1 dw1] dh1] & tr2 & E1 & E2 & _).
    apply bind_ok_inv in E1 as (? & l & ? & _ & E1 & _).
    apply bind_ok_inv in E1 as (? & W & ? & QW & E1 & _).
    apply bind_ok_inv in E1 as (? & H & ? & QH & E1 & _).
    injection E1 as _ <- <- <-.
    apply query_ok_inv in QW, QH.
    apply IH in E2 as (ew & eh & -> & -> & FW & FH).
    exists (W :: ew), (H :: eh). rewrite <- !app_assoc. simpl.
    repeat split; constructor; assumption.
Qed.

(** What a successful scan returns. *)
Lemma scan_media_ok tr s :
  scan_media w args = (tr, Ok s) ->
  reference args = Some (refPath s) /\
  probe_length w (refPath s) = Some (refLength s) /\
  probe_width w (refPath s) = Some (refWidth s) /\
  probe_height w (refPath s) = Some (refHeight s) /\
  Forall2 (fun f W => probe_width w f = Some W) (file args) (distWidth s) /\
  Forall2 (fun f H => probe_height w f = Some H) (file args) (distHeight s).
Proof.
  unfold scan_media. intros E.
  apply bind_ok_inv in E as (? & _ & ? & _ & E & _).
  destruct (reference args) as [r|]; [|discriminate].
  apply bind_ok_inv in E as (? & _ & ? & _ & E & _).
  apply bind_ok_inv in E as (? & _ & ? & _ & E & _).
  apply bind_ok_inv in E as (? & rl & ? & QL & E & _).
  apply bind_ok_inv in E as (? & rw & ? & QW & E & _).
  apply bind_ok_inv in E as (? & rh & ? & QH & E & _).
  apply bind_ok_inv in E as (? & [[dl dw] dh] & ? & F & E & _).
  injection E as _ <-. simpl.
  apply query_ok_inv in QL, QW, QH.
  apply probe_loop_ok in F as (ew & eh & -> & -> & FW & FH).
  repeat split; assumption.
Qed.

Lemma before_range_ok tr s :
  before_range w args = (tr, Ok s) ->
  exists tr', scan_media w args = (tr', Ok s).
Proof.
  unfold before_range. intros E.
  apply bind_ok_inv in E as (? & _ & ? & _ & E & _).
  apply bind_ok_inv in E as (? & _ & ? & _ & E & _).
  apply bind_ok_inv in E as (tr' & s' & ? & S & E & _).
  apply bind_ok_inv in E as (? & _ & ? & _ & E & _).
  injection E as _ <-. now exists tr'.
Qed.

(** ** The range check *)

Lemma Qlt_bool_iff x y : Qlt_bool x y = true <-> (x < y)%Q.
Proof.
  unfold Qlt_bool. rewrite negb_true_iff, <- not_true_iff_false, Qle_bool_iff.
  split; [apply Qnot_le_lt | apply Qlt_not_le].
Qed.

Lemma int_lt_float_iff p x : int_lt_float p x = true <-> below p x.
Proof.
  unfold int_lt_float, below.
  destruct (float_value x) as [[|q|]|]; simpl; try easy.
  apply Qlt_bool_iff.
Qed.

(** The check passes exactly when [0 < position] and the position is below
    the binary64 difference [refLength - duration]. *)
Lemma check_range_passes L p d fd :
  position args = Some p -> duration args = Some d ->
  float_of_int d = Some fd ->
  0 < p /\ below p (float_sub L fd) ->
  check_range args L = ret tt.
Proof.
  intros Hp Hd Hf [H0 H1]. unfold check_range. rewrite Hp, Hd, Hf.
  apply Z.ltb_lt in H0. apply int_lt_float_iff in H1. now rewrite H0, H1.
Qed.

Lemma check_range_fails L p d :
  position args = Some p -> duration args = Some d ->
  ~ (0 < p /\ exists fd, float_of_int d = Some fd /\
                         below p (float_sub L fd)) ->
  check_range args L
  = if (0 <? p) && overflows d
    then ([], Stop (Raised OverflowError))
    else ([PrintRangeInvalid (Some p) (Some d)], Stop (SysExit None)).
Proof.
  intros Hp Hd N. unfold check_range, range_invalid, overflows.
  rewrite Hp, Hd.
  destruct (0 <? p) eqn:H0; [|reflexivity].
  destruct (float_of_int d) as [fd|]; [|reflexivity].
  destruct (int_lt_float _ _) eqn:H1; [|reflexivity].
  exfalso. apply N. split; [now apply Z.ltb_lt|].
  exists fd. split; [reflexivity|now apply int_lt_float_iff].
Qed.

End ScanLemmas.

Section RangeCheck.

Variable lib : PyLib.
Variable w : World.
Variable args : Args.

Lemma stops_before_range tr t :
  before_range w args = (tr, Stop t) -> main lib w args = (tr, Stopped t).
Proof.
  intros E. apply main_stops. rewrite main_body_from_range.
  now apply bind_stop.
Qed.

Lemma stops_in_range tr0 s tr t :
  before_range w args = (tr0, Ok s) ->
  check_range args (refLength s) = (tr, Stop t) ->
  main lib w args = (tr0 ++ tr, Stopped t).
Proof.
  intros E C. apply main_stops. rewrite main_body_from_range.
  rewrite (bind_ok _ _ _ _ E). unfold from_range. now rewrite C.
Qed.

(** A run whose range check stops builds no plan and does not return. *)
Lemma range_stop_no_plan :
  (forall tr0 s, before_range w args = (tr0, Ok s) ->
                 exists tr t, check_range args (refLength s) = (tr, Stop t)) ->
  Forall (fun e => is_plan e = false) (fst (main lib w args)) /\
  snd (main lib w args) <> Returned.
Proof.
  intros H. pose proof (plan_silent_before_range w args) as S.
  unfold silent in S.
  destruct (before_range w args) as [tr0 [s|t]] eqn:E.
  - destruct (H _ _ eq_refl) as (tr & t & C).
    rewrite (stops_in_range _ _ _ _ E C). simpl. split; [|discriminate].
    apply Forall_app. split; [exact S|].
    pose proof (silent_check_range args is_plan (refLength s)
                  (fun _ _ => eq_refl)) as S'.
    unfold silent in S'. now rewrite C in S'.
  - rewrite (stops_before_range _ _ E). simpl. split; [exact S|discriminate].
Qed.

(** C3, as amended.  When position and duration are supplied and
    [0 < position < referenceDuration - duration] does not hold, the
    difference being the binary64 number the interpreter computes (the
    duration converted to a float, the subtraction rounded to nearest),
    the run stops without returning from [main] and no FFmpeg command is
    built or executed; a run that reaches the check prints the range
    diagnostic and exits there, or, when the position is positive and the
    duration is too large to be converted, raises [OverflowError]
    there. *)
Theorem range_violation_aborts r L p d :
  reference args = Some r -> probe_length w r = Some L ->
  position args = Some p -> duration args = Some d ->
  ~ (0 < p /\ exists fd, float_of_int d = Some fd /\
                         below p (float_sub L fd)) ->
  Forall (fun e => is_plan e = false) (fst (main lib w args)) /\
  snd (main lib w args) <> Returned /\
  (forall tr0 s,
      before_range w args = (tr0, Ok s) ->
      main lib w args
      = if (0 <? p) && overflows d
        then (tr0, Stopped (Raised OverflowError))
        else (tr0 ++ [PrintRangeInvalid (Some p) (Some d)],
              Stopped (SysExit None))).
Proof.
  intros Hr HL Hp Hd N.
  assert (F : forall tr0 s, before_range w args = (tr0, Ok s) ->
              check_range args (refLength s)
              = if (0 <? p) && overflows d
                then ([], Stop (Raised OverflowError))
                else ([PrintRangeInvalid (Some p) (Some d)],
                      Stop (SysExit None))).
  { intros tr0 s E. apply before_range_ok in E as (tr' & E).
    apply scan_media_ok in E as (R & HL' & _).
    rewrite Hr in R. injection R as R. rewrite <- R, HL in HL'.
    injection HL' as HL'. rewrite <- HL'.
    now apply check_range_fails. }
  destruct range_stop_no_plan as (S & T).
  { intros tr0 s E. rewrite (F _ _ E).
    destruct ((0 <? p) && overflows d); eauto. }
  repeat split; try assumption.
  intros tr0 s E. specialize (F _ _ E).
  destruct ((0 <? p) && overflows d);
    rewrite (stops_in_range _ _ _ _ E F); now rewrite ?app_nil_r.
Qed.

(** C9, as amended.  When [--position] or [--duration] is omitted the run
    builds no FFmpeg command and does not return from [main]; a run that
    reaches the range check raises [TypeError] there when the position is
    omitted or positive, and prints the range diagnostic and exits when
    the position is supplied and not positive (the duration is then never
    looked at). *)
Theorem range_check_without_flags :
  position args = None \/ duration args = None ->
  Forall (fun e => is_plan e = false) (fst (main lib w args)) /\
  snd (main lib w args) <> Returned /\
  (forall tr0 s,
      before_range w args = (tr0, Ok s) ->
      main lib w args
      = match position args with
        | None => (tr0, Stopped (Raised TypeError))
        | Some p =>
            if 0 <? p then (tr0, Stopped (Raised TypeError))
            else (tr0 ++ [PrintRangeInvalid (Some p) None],
                  Stopped (SysExit None))
        end).
Proof.
  intros H.
  assert (F : forall L, check_range args L
              = match position args with
                | None => ([], Stop (Raised TypeError))
                | Some p =>
                    if 0 <? p then ([], Stop (Raised TypeError))
                    else ([PrintRangeInvalid (Some p) None],
                          Stop (SysExit None))
                end).
  { intros L. unfold check_range, range_invalid, raise.
    destruct (position args) as [p|]; [|reflexivity].
    destruct H as [H|H]; [discriminate|]. rewrite H.
    now destruct (0 <? p). }
  destruct range_stop_no_plan as (S & T).
  { intros tr0 s _. rewrite F.
    destruct (position args) as [p|]; [destruct (0 <? p)|]; eauto. }
  repeat split; try assumption.
  intros tr0 s E. specialize (F (refLength s)).
  destruct (position args) as [p|]; [destruct (0 <? p)|];
    rewrite (stops_in_range _ _ _ _ E F); now rewrite ?app_nil_r.
Qed.

End RangeCheck.

(** The scenario of C3: position 5, duration 10, reference of 12 s. *)
Lemma range_violation_aborts_witness :
  exists tr0,
    main ex_lib (ex_world 12 1920 1080 1920 1080 ex_rows)
         (ex_args (Some 5) (Some 10) None false)
    = (tr0 ++ [PrintRangeInvalid (Some 5) (Some 10)], Stopped (SysExit None)).
Proof.
  assert (N : ~ (0 < 5 /\ exists fd, float_of_int 10 = Some fd /\
                                     below 5 (float_sub (float_of_Z 12) fd))).
  { intros [_ (fd & E & B)]. vm_compute in E. injection E as E.
    rewrite <- E in B. vm_compute in B. discriminate B. }
  destruct (range_violation_aborts ex_lib
              (ex_world 12 1920 1080 1920 1080 ex_rows)
              (ex_args (Some 5) (Some 10) None false)
              "ref.mkv" (float_of_Z 12) 5 10
              eq_refl eq_refl eq_refl eq_refl N)
    as (_ & _ & H).
  eexists. eapply H. vm_compute. reflexivity.
Defined.

(** Counterexample to C3 as stated: with a reference of 12 s, duration
    -10^17 and position 10^17 + 13 the condition fails, the position
    being above 12 + 10^17; the binary64 difference is 10^17 + 16, the
    check passes and the FFmpeg command is printed. *)
Lemma rounded_difference_passes :
  let p := 10 ^ 17 + 13 in
  let d := - 10 ^ 17 in
  let a := ex_args (Some p) (Some d) None false in
  let w := ex_world 12 1920 1080 1920 1080 ex_rows in
  let run := main ex_lib w a in
  position a = Some p /\ duration a = Some d /\
  (exists L q, probe_length w "ref.mkv" = Some L /\
               float_value L = Some (Real q) /\ (q == 12)%Q) /\
  ~ (0 < p < 12 - d) /\
  (exists fd q, float_of_int d = Some fd /\
                float_value (float_sub (float_of_Z 12) fd) = Some (Real q) /\
                (q == inject_Z (10 ^ 17 + 16))%Q) /\
  (exists c, In (PrintCommand c) (fst run)) /\
  snd run = Stopped (SysExit None).
Proof.
  cbv zeta. split; [reflexivity|]. split; [reflexivity|].
  split; [|split; [|split; [|split]]].
  - eexists. eexists. split; [reflexivity|]. split; [reflexivity|].
    vm_compute. reflexivity.
  - intros [_ H]. vm_compute in H. discriminate H.
  - eexists. eexists. split; [vm_compute; reflexivity|].
    split; [vm_compute; reflexivity|]. vm_compute. reflexivity.
  - eexists. vm_compute. do 15 right. left. reflexivity.
  - vm_compute. reflexivity.
Qed.

(** Counterexample to C9 as stated: with [--position 0] and no
    [--duration] the run exits through the range diagnostic; no
    [TypeError] is raised. *)
Lemma omitted_duration_without_type_error :
  let a := ex_args (Some 0) None None false in
  let run := main ex_lib (ex_world 12 1920 1080 1920 1080 ex_rows) a in
  duration a = None /\
  snd run = Stopped (SysExit None) /\
  snd run <> Stopped (Raised TypeError) /\
  In (PrintRangeInvalid (Some 0) None) (fst run).
Proof.
  vm_compute. repeat split; try discriminate. intuition.
Qed.

Lemma range_check_without_flags_witness :
  exists tr0,
    main ex_lib (ex_world 12 1920 1080 1920 1080 ex_rows)
         (ex_args None None None false)
    = (tr0, Stopped (Raised TypeError)).
Proof.
  destruct (range_check_without_flags ex_lib
              (ex_world 12 1920 1080 1920 1080 ex_rows)
              (ex_args None None None false) (or_introl eq_refl))
    as (_ & _ & H).
  eexists. apply (H _ _ eq_refl).
Defined.

(** ** The crop pattern *)

Lemma span_digits_spec s :
  forall d r, span_digits s = (d, r) ->
    s = (d ++ r)%string /\ all_digits d = true /\ no_digit_ahead r.
Proof.
  induction s as [|c s IH]; simpl; intros d r E.
  - injection E as <- <-. now repeat split.
  - destruct (is_digit c) eqn:D.
    + destruct (span_digits s) as [d' r'].
      injection E as <- <-. destruct (IH _ _ eq_refl) as (-> & A & N).
      simpl. rewrite D, A. now repeat split.
    + injection E as <- <-. simpl. now repeat split.
Qed.

Lemma span_digits_app d s :
  all_digits d = true ->
  span_digits (d ++ s)
  = (d ++ fst (span_digits s), snd (span_digits s))%string.
Proof.
  induction d as [|c d IH]; simpl.
  - intros _. now destruct (span_digits s).
  - intros [D A]%andb_prop. rewrite D, (IH A). reflexivity.
Qed.

Lemma span_digits_stop s :
  no_digit_ahead s -> span_digits s = (EmptyString, s).
Proof. destruct s as [|c s]; simpl; [reflexivity|]. now intros ->. Qed.

Lemma no_digit_ahead_colon s : no_digit_ahead (":" ++ s).
Proof. reflexivity. Qed.

Lemma append_nil_r (s : string) : (s ++ EmptyString)%string = s.
Proof. induction s as [|c s IH]; simpl; now rewrite ?IH. Qed.

Lemma append_assoc (a b c : string) :
  ((a ++ b) ++ c)%string = (a ++ (b ++ c))%string.
Proof. induction a as [|x a IH]; simpl; now rewrite ?IH. Qed.

Lemma group_spec s d r :
  group s = Some (d, r) <->
  digit_run d /\ s = (d ++ r)%string /\ no_digit_ahead r.
Proof.
  unfold group, digit_run. split.
  - destruct (span_digits s) as [d' r'] eqn:E.
    apply span_digits_spec in E as (-> & A & N).
    destruct d' as [|c d']; [discriminate|].
    intros [= <- <-]. repeat split; try assumption. discriminate.
  - intros ([NE A] & -> & N).
    rewrite (span_digits_app _ _ A), (span_digits_stop _ N). simpl.
    rewrite append_nil_r. destruct d; [now elim NE|reflexivity].
Qed.


Lemma colon_spec s r : colon s = Some r <-> s = (":" ++ r)%string.
Proof.
  unfold colon. split.
  - destruct s as [|c s]; [discriminate|].
    destruct c as [[] [] [] [] [] [] [] []]; try discriminate.
    now intros [= ->].
  - now intros ->.
Qed.

(** What the pattern matches: four runs of digits separated by colons, the
    fourth one as long as possible. *)
Lemma pattern_match_spec s g0 g1 g2 g3 :
  pattern_match s = Some (g0, g1, g2, g3) <->
  exists rest,
    digit_run g0 /\ digit_run g1 /\ digit_run g2 /\ digit_run g3 /\
    s = (g0 ++ ":" ++ g1 ++ ":" ++ g2 ++ ":" ++ g3 ++ rest)%string /\
    no_digit_ahead rest.
Proof.
  unfold pattern_match. split.
  - destruct (group s) as [[a r1]|] eqn:G0; [|discriminate].
    destruct (colon r1) as [r1'|] eqn:C1; [|discriminate].
    destruct (group r1') as [[b r2]|] eqn:G1; [|discriminate].
    destruct (colon r2) as [r2'|] eqn:C2; [|discriminate].
    destruct (group r2') as [[c r3]|] eqn:G2; [|discriminate].
    destruct (colon r3) as [r3'|] eqn:C3; [|discriminate].
    destruct (group r3') as [[d r4]|] eqn:G3; [|discriminate].
    intros [= <- <- <- <-].
    apply group_spec in G0 as (D0 & -> & _), G1 as (D1 & -> & _),
        G2 as (D2 & -> & _), G3 as (D3 & -> & N).
    apply colon_spec in C1 as ->, C2 as ->, C3 as ->.
    exists r4. intuition.
  - intros (rest & D0 & D1 & D2 & D3 & -> & N).
    assert (G : forall d r, digit_run d ->
                group (d ++ ":" ++ r) = Some (d, (":" ++ r)%string)).
    { intros d r D. apply group_spec. repeat split; apply D. }
    assert (C : forall r, colon (":" ++ r) = Some r) by reflexivity.
    rewrite (G _ _ D0), C, (G _ _ D1), C, (G _ _ D2), C.
    assert (G3 : group (g3 ++ rest) = Some (g3, rest))
      by (apply group_spec; repeat split; [apply D3 | apply D3 | exact N]).
    now rewrite G3.
Qed.



(** ** The crop conversion *)

Section Reconcile.

Variable lib : PyLib.
Variable w : World.
Variable args : Args.

Lemma pattern_match_truthy raw g :
  pattern_match raw = Some g -> truthy_str (Some raw) = true.
Proof. destruct raw; [discriminate|reflexivity]. Qed.

(** With a crop that matches the pattern, the conversion announces the
    margin form when it detects it, compares the resolved rectangle with
    every distorted video and returns its string. *)
Lemma reconcile_matched raw g rw rh dw dh :
  crop args = Some raw -> pattern_match raw = Some g ->
  reconcile args rw rh dw dh
  = ((if is_margins rw rh (parsed_crop g)
      then emit PrintInterpretingCrop else ret tt) ;;;
     check_mismatch args (resolved_crop rw rh g) dw dh ;;;
     ret (crop_string (resolved_crop rw rh g))).
Proof.
  intros C E. unfold reconcile, resolved_crop.
  rewrite C, (pattern_match_truthy _ _ E), E.
  destruct g as [[[g0 g1] g2] g3]. simpl parsed_crop.
  destruct (is_margins _ _ _).
  - now rewrite bind_assoc, bind_ret_l.
  - now rewrite !bind_ret_l.
Qed.






Lemma before_reconcile_ok tr s :
  before_reconcile w args = (tr, Ok s) ->
  exists tr', before_range w args = (tr', Ok s).
Proof.
  unfold before_reconcile. intros E.
  apply bind_ok_inv in E as (tr' & s' & ? & B & E & _).
  apply bind_ok_inv in E as (? & _ & ? & _ & E & _).
  injection E as _ <-. now exists tr'.
Qed.



End Reconcile.

Section CropClaims.

Variable lib : PyLib.
Variable w : World.
Variable args : Args.




End CropClaims.






(** ** The order of floats *)

Lemma ereal_leb_iff a b : ereal_leb a b = true <-> ereal_le a b.
Proof.
  unfold ereal_leb. rewrite negb_true_iff.
  destruct a as [|p|], b as [|q|]; simpl; try (split; [easy|easy]).
  unfold Qlt_bool. rewrite negb_false_iff. apply Qle_bool_iff.
Qed.

Lemma ereal_ltb_iff a b : ereal_ltb a b = true <-> ~ ereal_le b a.
Proof.
  rewrite <- ereal_leb_iff. unfold ereal_leb.
  rewrite negb_true_iff. now destruct (ereal_ltb a b).
Qed.

Lemma ereal_le_refl a : ereal_le a a.
Proof. destruct a; simpl; auto. apply Qle_refl. Qed.

Lemma ereal_le_trans a b c : ereal_le a b -> ereal_le b c -> ereal_le a c.
Proof.
  destruct a, b, c; simpl; auto; try easy. apply Qle_trans.
Qed.

Lemma ereal_le_total a b : ereal_le a b \/ ereal_le b a.
Proof.
  destruct a as [|p|], b as [|q|]; simpl; auto.
  destruct (Qlt_le_dec p q) as [H|H]; [left; now apply Qlt_le_weak|now right].
Qed.

Lemma number_value x : number x -> exists a, float_value x = Some a.
Proof. destruct x; intros N; try discriminate N; simpl; eauto. Qed.

Lemma float_leb_number x y :
  float_leb x y = true -> number x /\ number y.
Proof. unfold float_leb. destruct x, y; simpl; intros H; now try discriminate H. Qed.

Lemma float_leb_refl x : number x -> float_leb x x = true.
Proof.
  intros N. destruct (number_value x N) as (a & E). unfold float_leb.
  rewrite E. apply ereal_leb_iff, ereal_le_refl.
Qed.

Lemma float_leb_trans x y z :
  float_leb x y = true -> float_leb y z = true -> float_leb x z = true.
Proof.
  unfold float_leb.
  destruct (float_value x) as [a|], (float_value y) as [b|],
    (float_value z) as [c|]; try discriminate.
  rewrite !ereal_leb_iff. apply ereal_le_trans.
Qed.

(** Between numbers, [x <= y] is the negation of [y < x]. *)
Lemma float_leb_ltb x y :
  number x -> number y -> float_leb x y = negb (float_ltb y x).
Proof.
  intros Nx Ny. destruct (number_value x Nx) as (a & Ea).
  destruct (number_value y Ny) as (b & Eb).
  unfold float_leb, float_ltb. now rewrite Ea, Eb.
Qed.

Lemma float_ltb_number x y :
  float_ltb x y = true -> number x /\ number y.
Proof. unfold float_ltb. destruct x, y; simpl; intros H; now try discriminate H. Qed.

Lemma float_ltb_leb x y : float_ltb x y = true -> float_leb x y = true.
Proof.
  unfold float_ltb, float_leb.
  destruct (float_value x) as [a|], (float_value y) as [b|]; try discriminate.
  rewrite ereal_ltb_iff, ereal_leb_iff.
  intros H. destruct (ereal_le_total a b); [assumption|contradiction].
Qed.

Lemma float_ltb_leb_trans x y z :
  float_ltb x y = true -> float_leb y z = true -> float_ltb x z = true.
Proof.
  unfold float_ltb, float_leb.
  destruct (float_value x) as [a|], (float_value y) as [b|],
    (float_value z) as [c|]; try discriminate.
  rewrite !ereal_ltb_iff, ereal_leb_iff.
  intros H1 H2 H3. apply H1. now apply ereal_le_trans with c.
Qed.

Lemma float_leb_not_ltb x y : float_leb x y = true -> float_ltb y x = false.
Proof.
  intros H. destruct (float_leb_number _ _ H) as [Nx Ny].
  rewrite (float_leb_ltb _ _ Nx Ny) in H. now apply negb_true_iff in H.
Qed.

(** ** Sorting *)

Lemma run_ascending_app prev l :
  fst (run_ascending prev l) ++ snd (run_ascending prev l) = l.
Proof.
  revert prev. induction l as [|x l IH]; intros prev; simpl; [reflexivity|].
  destruct (float_ltb x prev); [reflexivity|].
  specialize (IH x). destruct (run_ascending x l). simpl in *. now rewrite IH.
Qed.

Lemma run_descending_app prev l :
  fst (run_descending prev l) ++ snd (run_descending prev l) = l.
Proof.
  revert prev. induction l as [|x l IH]; intros prev; simpl; [reflexivity|].
  destruct (float_ltb x prev); [|reflexivity].
  specialize (IH x). destruct (run_descending x l). simpl in *. now rewrite IH.
Qed.

Lemma count_run_perm l :
  Permutation (fst (count_run l) ++ snd (count_run l)) l.
Proof.
  destruct l as [|a [|b l]]; simpl; try (rewrite ?app_nil_r; reflexivity).
  destruct (float_ltb b a).
  - pose proof (run_descending_app b l) as E.
    destruct (run_descending b l) as [run rest]. simpl in *.
    rewrite <- E.
    change (((rev run ++ [b]) ++ [a]) ++ rest) with (rev (a :: b :: run) ++ rest).
    rewrite <- Permutation_rev. reflexivity.
  - pose proof (run_ascending_app b l) as E.
    destruct (run_ascending b l) as [run rest]. simpl in *. now rewrite E.
Qed.

Lemma binary_insert_perm run pivot :
  Permutation (binary_insert run pivot) (pivot :: run).
Proof.
  unfold binary_insert. cbv zeta.
  rewrite <- Permutation_middle. now rewrite firstn_skipn.
Qed.

Lemma binarysort_perm rest : forall run,
  Permutation (binarysort run rest) (run ++ rest).
Proof.
  unfold binarysort. induction rest as [|x rest IH]; intros run; simpl.
  - now rewrite app_nil_r.
  - rewrite IH, binary_insert_perm. now rewrite <- Permutation_middle.
Qed.

Lemma sort_perm l : Permutation (sort l) l.
Proof.
  unfold sort. pose proof (count_run_perm l) as P.
  destruct (count_run l) as [run rest]. simpl in P.
  now rewrite binarysort_perm.
Qed.

Lemma sort_length l : List.length (sort l) = List.length l.
Proof. apply Permutation_length, sort_perm. Qed.

(** Sortedness, for lists of numbers. *)

Lemma run_ascending_sorted l : forall prev,
  number prev -> Forall number l ->
  StronglySorted float_le (prev :: fst (run_ascending prev l)).
Proof.
  induction l as [|x l IH]; intros prev Np F; simpl.
  - repeat constructor.
  - inversion F as [|? ? Nx F']; subst.
    destruct (float_ltb x prev) eqn:E; simpl; [repeat constructor|].
    specialize (IH x Nx F'). destruct (run_ascending x l) as [run rest].
    simpl in *.
    assert (L : float_le prev x).
    { unfold float_le. rewrite float_leb_ltb by assumption. now rewrite E. }
    constructor; [exact IH|].
    constructor; [exact L|].
    apply StronglySorted_inv in IH as [_ H].
    eapply Forall_impl; [|exact H]. intros y. apply float_leb_trans. exact L.
Qed.

(** A strictly descending run, reversed, is ascending. *)
Lemma run_descending_sorted l : forall prev acc,
  StronglySorted float_le (prev :: acc) ->
  StronglySorted float_le (rev (fst (run_descending prev l)) ++ prev :: acc).
Proof.
  induction l as [|x l IH]; intros prev acc S; simpl; [exact S|].
  destruct (float_ltb x prev) eqn:E; simpl; [|exact S].
  specialize (IH x (prev :: acc)).
  destruct (run_descending x l) as [run rest]. simpl in *.
  rewrite <- app_assoc. simpl. apply IH.
  constructor; [exact S|].
  apply float_ltb_leb in E.
  constructor; [exact E|].
  apply StronglySorted_inv in S as [_ H].
  eapply Forall_impl; [|exact H]. intros y. apply float_leb_trans. exact E.
Qed.

Lemma count_run_sorted l :
  Forall number l -> StronglySorted float_le (fst (count_run l)).
Proof.
  intros F. destruct l as [|a [|b l]]; simpl.
  - constructor.
  - repeat constructor.
  - inversion F as [|? ? Na F1]; subst. inversion F1 as [|? ? Nb F2]; subst.
    destruct (float_ltb b a) eqn:E.
    + pose proof (run_descending_sorted l b [a]) as S.
      destruct (run_descending b l) as [run rest]. simpl in *.
      rewrite <- app_assoc. simpl. apply S.
      apply float_ltb_leb in E. repeat constructor. exact E.
    + pose proof (run_ascending_sorted l b Nb F2) as S.
      destruct (run_ascending b l) as [run rest]. simpl in *.
      assert (L : float_le a b).
      { unfold float_le. rewrite float_leb_ltb by assumption. now rewrite E. }
      constructor; [exact S|].
      constructor; [exact L|].
      apply StronglySorted_inv in S as [_ H].
      eapply Forall_impl; [|exact H]. intros y. apply float_leb_trans. exact L.
Qed.

Lemma sorted_around (run : list float) p x :
  StronglySorted float_le run -> nth_error run p = Some x ->
  (forall y, In y (firstn p run) -> float_le y x) /\
  (forall y, In y (skipn (S p) run) -> float_le x y).
Proof.
  intros S E. rewrite <- (firstn_skipn_middle _ _ E) in S.
  revert S. generalize (firstn p run) as l1, (skipn (S p) run) as l2.
  induction l1 as [|a l1 IH]; intros l2 S; cbn [app] in S.
  - apply StronglySorted_inv in S as [_ F]. rewrite Forall_forall in F.
    split; [intros y []|exact F].
  - apply StronglySorted_inv in S as [S F]. rewrite Forall_forall in F.
    destruct (IH _ S) as [A B]. split; [|exact B].
    intros y [<-|I]; [|auto]. apply F. apply in_elt.
Qed.

(** The binary search of an insertion: what lies before the position found
    is not above the pivot, what lies from it on is above. *)
Lemma bisect_spec run pivot :
  StronglySorted float_le run -> Forall number run -> number pivot ->
  forall fuel l r,
    (l < r <= List.length run)%nat -> (r - l <= fuel)%nat ->
    (forall y, In y (firstn l run) -> float_le y pivot) ->
    (forall y, In y (skipn r run) -> float_ltb pivot y = true) ->
    let k := bisect fuel run pivot l r in
    (forall y, In y (firstn k run) -> float_le y pivot) /\
    (forall y, In y (skipn k run) -> float_ltb pivot y = true).
Proof.
  intros So F Np. induction fuel as [|fuel IH]; intros l r B Fu Lo Hi; [lia|].
  cbn [bisect]. cbv zeta.
  set (p := (l + (r - l) / 2)%nat).
  assert (Bp : (l <= p < r)%nat).
  { unfold p. split; [lia|].
    assert ((r - l) / 2 < r - l)%nat by (apply Nat.div_lt; lia). lia. }
  destruct (nth_error run p) as [x|] eqn:E.
  2:{ apply nth_error_None in E. lia. }
  rewrite (nth_error_nth _ _ pivot E).
  destruct (sorted_around run p x So E) as [Bef Aft].
  assert (Nx : number x).
  { rewrite Forall_forall in F. apply F. now apply nth_error_In in E. }
  destruct (float_ltb pivot x) eqn:C.
  - assert (Hi' : forall y, In y (skipn p run) -> float_ltb pivot y = true).
    { intros y I.
      rewrite <- (firstn_skipn_middle _ _ E) in I.
      rewrite skipn_app, firstn_length_le, Nat.sub_diag in I by lia.
      rewrite skipn_all2 in I by (rewrite firstn_length_le; lia).
      cbn in I. destruct I as [<-|I]; [exact C|].
      apply float_ltb_leb_trans with x; [exact C|now apply Aft]. }
    destruct (Nat.ltb_spec l p) as [LP|LP].
    + apply IH; try assumption; lia.
    + assert (EQ : p = l) by lia. rewrite EQ in Hi'. split; assumption.
  - assert (Lx : float_le x pivot).
    { unfold float_le. rewrite float_leb_ltb by assumption. now rewrite C. }
    assert (Lo' : forall y, In y (firstn (S p) run) -> float_le y pivot).
    { intros y I.
      rewrite <- (firstn_skipn_middle _ _ E) in I.
      rewrite firstn_app, firstn_length_le in I by lia.
      replace (S p - p)%nat with 1%nat in I by lia.
      rewrite firstn_all2 in I by (rewrite firstn_length_le; lia).
      cbn in I. apply in_app_iff in I as [I|[<-|[]]]; [|exact Lx].
      apply float_leb_trans with x; [now apply Bef|exact Lx]. }
    destruct (Nat.ltb_spec (Datatypes.S p) r) as [LP|LP].
    + apply IH; try assumption; lia.
    + assert (EQ : r = S p) by lia. rewrite EQ in Hi. split; assumption.
Qed.

Lemma insert_between (l1 l2 : list float) x :
  StronglySorted float_le (l1 ++ l2) ->
  (forall y, In y l1 -> float_le y x) ->
  (forall y, In y l2 -> float_le x y) ->
  StronglySorted float_le (l1 ++ x :: l2).
Proof.
  induction l1 as [|a l1 IH]; cbn [app]; intros S Lo Hi.
  - constructor; [exact S|]. now apply Forall_forall.
  - apply StronglySorted_inv in S as [S F]. constructor.
    + apply IH; auto. intros y I. apply Lo. now right.
    + rewrite Forall_forall in *. intros y I.
      apply in_app_iff in I as [I|[<-|I]].
      * apply F, in_or_app. now left.
      * apply Lo. now left.
      * apply F, in_or_app. now right.
Qed.

Lemma binary_insert_sorted run pivot :
  StronglySorted float_le run -> Forall number run -> number pivot ->
  StronglySorted float_le (binary_insert run pivot).
Proof.
  intros S F Np. unfold binary_insert. cbv zeta.
  destruct run as [|a run'] eqn:R.
  - cbn. repeat constructor.
  - rewrite <- R in *.
    assert (L : (0 < List.length run)%nat) by (rewrite R; simpl; lia).
    destruct (bisect_spec run pivot S F Np (List.length run) 0
                          (List.length run)) as [Lo Hi].
    + lia.
    + lia.
    + intros y [].
    + rewrite skipn_all. intros y [].
    + apply insert_between.
      * now rewrite firstn_skipn.
      * exact Lo.
      * intros y I. apply float_ltb_leb. now apply Hi.
Qed.

Lemma binarysort_sorted rest : forall run,
  StronglySorted float_le run -> Forall number run -> Forall number rest ->
  StronglySorted float_le (binarysort run rest).
Proof.
  unfold binarysort. induction rest as [|x rest IH]; intros run S F Fr; simpl.
  - exact S.
  - inversion Fr as [|? ? Nx Fr']; subst. apply IH.
    + now apply binary_insert_sorted.
    + apply (Permutation_Forall (Permutation_sym (binary_insert_perm run x))).
      now constructor.
    + exact Fr'.
Qed.

(** A list of numbers comes out of [sort] in ascending order. *)
Lemma sort_sorted l : Forall number l -> StronglySorted float_le (sort l).
Proof.
  intros F. unfold sort.
  pose proof (count_run_sorted l F) as S.
  pose proof (count_run_perm l) as P.
  destruct (count_run l) as [run rest]. simpl in *.
  apply (Permutation_Forall (Permutation_sym P)) in F.
  apply Forall_app in F as [F1 F2].
  now apply binarysort_sorted.
Qed.

(** ** The 5th percentile and the mean *)

(** On a length, [int(0.05 * n)] is the quotient of [n] by 20. *)
Lemma nthPercentileIndex_div n : nthPercentileIndex n = Z.of_nat n / 20.
Proof.
  unfold nthPercentileIndex, int_of_float.
  cbn [Qmult Qnum Qden inject_Z]. change (Z.pos (100 * 1)) with (5 * 20).
  rewrite Z.quot_div_nonneg by lia. apply Z.div_mul_cancel_l; lia.
Qed.

Lemma nthPercentileIndex_floor n :
  nthPercentileIndex n = Qfloor ((5 # 100) * inject_Z (Z.of_nat n)).
Proof.
  unfold nthPercentileIndex, int_of_float, Qfloor.
  cbn [Qmult Qnum Qden inject_Z]. apply Z.quot_div_nonneg; lia.
Qed.

(** On every length from 1 to 2000 the binary64 computation of line 340
    gives the index of the model. *)
Lemma nthPercentileIndex_binary64 :
  forallb (fun n => f64_nthPercentileIndex n =? nthPercentileIndex n)
          (seq 1 2000) = true.
Proof. vm_compute. reflexivity. Qed.

(** Lines 336-345 for a metric with samples: the lookup succeeds and the
    summary line is printed. *)
Lemma report_metric_prints lib args key col samples m :
  samples <> [] ->
  dict_get key (qualityMetrics args) = Some m ->
  exists nthPercentileValue,
    nth_error (sort samples)
              (Z.to_nat (nthPercentileIndex (List.length samples)))
    = Some nthPercentileValue /\
    report_metric lib args key (col, samples)
    = emit (PrintSummary key
                         (float_div (py_sum lib (sort samples))
                                    (float_of_len (List.length samples)))
                         nthPercentileValue (accuracy m)).
Proof.
  intros NE HK.
  assert (HN : (1 <= List.length samples)%nat)
    by (destruct samples; [now elim NE|simpl; lia]).
  assert (B : nthPercentileIndex (List.length samples)
              < Z.of_nat (List.length samples)).
  { rewrite nthPercentileIndex_div. apply Z.div_lt; lia. }
  assert (P : 0 <= nthPercentileIndex (List.length samples)).
  { rewrite nthPercentileIndex_div. apply Z.div_pos; lia. }
  destruct (nth_error (sort samples)
                      (Z.to_nat (nthPercentileIndex (List.length samples))))
    as [v|] eqn:E.
  2:{ apply nth_error_None in E. rewrite sort_length in E. lia. }
  exists v. split; [reflexivity|].
  unfold report_metric. cbn [snd].
  destruct (Nat.eqb_spec (List.length samples) 0) as [Z0|_]; [lia|].
  cbv zeta. rewrite sort_length, E, HK. reflexivity.
Qed.

(** C4, as amended.  For a metric with N >= 1 parsed samples none of which
    is NaN, the list the sort leaves is the samples in ascending order,
    and the 5th percentile printed is its element at index
    [floor(0.05 * N)]; that index lies in [0, N-1], so clamping leaves it
    unchanged and the lookup succeeds; it is 0 whenever N < 20, 0 for
    N = 10 and 1 for N = 25.  The mean printed is the float [sum] of the
    sorted samples divided by N in binary64. *)
Theorem percentile_nearest_rank lib args key col samples m :
  (1 <= List.length samples)%nat ->
  Forall number samples ->
  dict_get key (qualityMetrics args) = Some m ->
  let N := List.length samples in
  let sorted := sort samples in
  let i := nthPercentileIndex N in
  Permutation sorted samples /\
  StronglySorted float_le sorted /\
  i = Qfloor ((5 # 100) * inject_Z (Z.of_nat N)) /\
  0 <= i <= Z.of_nat N - 1 /\
  i = Z.max 0 (Z.min (Z.of_nat N - 1) i) /\
  ((N < 20)%nat -> i = 0) /\
  nthPercentileIndex 10 = 0 /\
  nthPercentileIndex 25 = 1 /\
  exists nthPercentileValue,
    nth_error sorted (Z.to_nat i) = Some nthPercentileValue /\
    report_metric lib args key (col, samples)
    = emit (PrintSummary key
                         (float_div (py_sum lib sorted) (float_of_len N))
                         nthPercentileValue (accuracy m)).
Proof.
  intros HN HF HK N sorted i.
  assert (B : 0 <= i <= Z.of_nat N - 1).
  { unfold i. rewrite nthPercentileIndex_div. split.
    - apply Z.div_pos; lia.
    - assert (Z.of_nat N / 20 < Z.of_nat N) by (apply Z.div_lt; lia). lia. }
  assert (L : List.length sorted = N) by apply sort_length.
  destruct (nth_error sorted (Z.to_nat i)) as [v|] eqn:E.
  2:{ apply nth_error_None in E. lia. }
  repeat split; try apply B.
  - apply sort_perm.
  - now apply sort_sorted.
  - apply nthPercentileIndex_floor.
  - lia.
  - intros S. unfold i. rewrite nthPercentileIndex_div.
    apply Z.div_small. lia.
  - exists v. split; [reflexivity|].
    unfold report_metric. simpl snd. fold N sorted.
    destruct (Nat.eqb_spec N 0) as [Z0|_]; [lia|].
    cbv zeta. fold sorted. rewrite L. fold i. now rewrite E, HK.
Qed.

(** Three samples: the mean is 6/3 and the 5th percentile the smallest. *)
Lemma percentile_nearest_rank_witness :
  report_metric ex_lib (ex_args (Some 1) (Some 1) None false) "VMAF"
                (1%nat, [float_of_Z 3; float_of_Z 1; float_of_Z 2])
  = emit (PrintSummary "VMAF" (float_of_Z 2) (float_of_Z 1) 2).
Proof.
  assert (N : (1 <= List.length [float_of_Z 3; float_of_Z 1;
                                 float_of_Z 2])%nat)
    by (simpl; lia).
  assert (F : Forall number [float_of_Z 3; float_of_Z 1; float_of_Z 2])
    by (repeat constructor).
  destruct (percentile_nearest_rank
              ex_lib (ex_args (Some 1) (Some 1) None false) "VMAF" 1%nat
              [float_of_Z 3; float_of_Z 1; float_of_Z 2]
              {| command := EmptyString; csv_name := "vmaf";
                 csv_column := 0; accuracy := 2 |} N F eq_refl)
    as (_ & _ & _ & _ & _ & _ & _ & _ & v & E & R).
  rewrite R. vm_compute in E. injection E as <-. vm_compute. reflexivity.
Defined.

(** Counterexample to C4 as stated: the cell [nan] converts to a float and
    is kept as a sample; the sort leaves the series 3, NaN, 1, 2 as it
    is, which is not ascending, and the 5th percentile printed is 3,
    although the samples 1 and 2 are below it. *)
Lemma nan_sample_unsorted :
  let a := ex_args (Some 1) (Some 1) None false in
  let w := ex_world 12 1920 1080 1920 1080 ex_rows_nan in
  let samples := column_samples ex_lib 1 (tl ex_rows_nan) in
  samples = [float_of_Z 3; S754_nan; float_of_Z 1; float_of_Z 2] /\
  (1 <= List.length samples)%nat /\
  sort samples = [float_of_Z 3; S754_nan; float_of_Z 1; float_of_Z 2] /\
  ~ Sorted float_le (sort samples) /\
  In (PrintSummary "VMAF" S754_nan (float_of_Z 3) 2)
     (fst (main ex_lib w a)) /\
  float_ltb (float_of_Z 1) (float_of_Z 3) = true /\
  float_ltb (float_of_Z 2) (float_of_Z 3) = true.
Proof.
  cbv zeta. split; [reflexivity|]. split; [simpl; lia|].
  split; [vm_compute; reflexivity|].
  split; [|split; [|split; vm_compute; reflexivity]].
  - intros S. apply Sorted_inv in S as [_ H].
    vm_compute in H. apply HdRel_inv in H. discriminate H.
  - vm_compute. do 20 right. left. reflexivity.
Qed.

(** ** Execution of the FFmpeg command *)

Lemma silent_read_row P lib row rd : silent P (read_row lib row rd).
Proof.
  induction rd as [|[key value] rd IH]; simpl; [apply silent_ret|].
  destruct (nth_error row (fst value)); [|apply silent_raise].
  apply silent_bind; [exact IH|]. intros; apply silent_ret.
Qed.

(** No stage of [main] executes an FFmpeg command. *)
Lemma run_silent_main_body lib w args : silent is_run (main_body lib w args).
Proof.
  unfold main_body, peripheral, verify_tools, scan_media, query,
    check_range, range_invalid, reconcile, check_mismatch, check_model,
    output_files, vmaf_calculation, aggregate, aggregate_file,
    find_columns, read_rows, report, report_metric.
  silence; try apply silent_read_row; silence.
Qed.

(** Whatever the arguments and the world, dry run or not, the trace of
    [main] has no execution of an FFmpeg command. *)
Lemma ffmpeg_never_executed lib w args c :
  ~ In (RunFFmpeg c) (fst (main lib w args)).
Proof.
  rewrite main_trace. intros I.
  pose proof (run_silent_main_body lib w args) as S.
  unfold silent in S. rewrite Forall_forall in S.
  apply S in I. discriminate I.
Qed.

(** C5, at a run that is not a dry run (one distorted video, no CSV file
    yet): the FFmpeg command is built and printed, it is not executed, and
    the run ends on the CSV file that nothing has written. *)
Lemma non_dry_run_prints_only :
  let a := ex_args_run (Some 1) (Some 1) in
  let run := main ex_lib (ex_world_fresh 12 1920 1080 1920 1080) a in
  dry_run a = false /\
  (exists c, In (PrintCommand c) (fst run)) /\
  (forall c, ~ In (RunFFmpeg c) (fst run)) /\
  snd run = Stopped (Raised FileNotFoundError).
Proof.
  repeat split.
  - eexists. vm_compute. do 15 right. left. reflexivity.
  - intros c. apply ffmpeg_never_executed.
Qed.

(** ** Exit status *)

(** C6, at the range violation of C3 and at a crop mismatch: both print
    their diagnostic and call [exit()] without an argument, so the exit
    status is 0; an invalid crop string, which calls [exit(message)],
    gives 1. *)
Lemma validation_failure_exit_status :
  let w := ex_world 12 1920 1080 1280 720 ex_rows in
  let range := main ex_lib w (ex_args (Some 5) (Some 10) None false) in
  let mismatch :=
    main ex_lib w (ex_args (Some 1) (Some 1) (Some "10:10:10:10") false) in
  let invalid :=
    main ex_lib w (ex_args (Some 1) (Some 1) (Some "1920x1080") false) in
  In (PrintRangeInvalid (Some 5) (Some 10)) (fst range) /\
  exit_status (snd range) = 0 /\
  In (PrintCropMismatch "d1.mp4" 1900 1060 1280 720) (fst mismatch) /\
  exit_status (snd mismatch) = 0 /\
  snd invalid = Stopped (SysExit (Some "Invalid crop: 1920x1080")) /\
  exit_status (snd invalid) = 1.
Proof.
  vm_compute. repeat split; auto 20.
Qed.

(** ** Dictionaries *)

Section Dict.

Context {V : Type}.

Lemma dict_get_in (d : dict V) k v :
  NoDup (map fst d) -> In (k, v) d -> dict_get k d = Some v.
Proof.
  induction d as [|[k' v'] d IH]; simpl; [tauto|].
  intros ND [E|I].
  - injection E as -> ->. now rewrite String.eqb_refl.
  - inversion ND as [|? ? NI ND']; subst.
    destruct (String.eqb_spec k k') as [->|_]; [|auto].
    elim NI. change k' with (fst (k', v)). now apply in_map.
Qed.


(** Setting a key that lies after a prefix without it. *)
Lemma dict_set_app (pre : dict V) k v v' d :
  ~ In k (map fst pre) ->
  dict_set k v (pre ++ (k, v') :: d) = pre ++ (k, v) :: d.
Proof.
  induction pre as [|[k0 v0] pre IH]; simpl; intros N.
  - now rewrite String.eqb_refl.
  - destruct (String.eqb_spec k k0) as [->|_]; [elim N; now left|].
    rewrite IH; auto.
Qed.

(** Popping keys other than the first one leaves the first entry. *)
Lemma pop_others (ks : list string) k v (d : dict V) :
  ~ In k ks ->
  fold_left (fun rd i => dict_pop i rd) ks ((k, v) :: d)
  = (k, v) :: fold_left (fun rd i => dict_pop i rd) ks d.
Proof.
  revert d. induction ks as [|k0 ks IH]; simpl; intros d N; [reflexivity|].
  destruct (String.eqb_spec k0 k) as [->|_]; [elim N; now left|].
  apply IH. tauto.
Qed.

End Dict.

(** ** Aggregation of one CSV file *)

Section Aggregation.

Variable lib : PyLib.
Variable w : World.
Variable args : Args.

Lemma qualityMetrics_nodup : NoDup (map fst (qualityMetrics args)).
Proof.
  unfold qualityMetrics.
  destruct (psnr args), (ssim args), (ms_ssim args); simpl;
    repeat constructor; simpl; intuition discriminate.
Qed.

Lemma missing_metrics_keys header (qm : dict Metric) k :
  In k (missing_metrics header qm) -> In k (map fst qm).
Proof.
  induction qm as [|[k0 m0] qm IH]; simpl; [tauto|].
  rewrite in_app_iff. intros [I|I]; [|auto].
  destruct (list_index _ _); simpl in I; tauto.
Qed.


(** Lines 305-312, from any point of the loop on, for any dictionary of
    metrics without duplicate keys. *)
Lemma find_columns_loop (qm : dict Metric) header :
  NoDup (map fst qm) ->
  forall suf pre toRemove,
  qm = pre ++ suf ->
  for_fold
    (fun '(rd, toRemove) '(key, value) =>
       match dict_get key qm with
       | None => raise KeyError
       | Some m =>
           match list_index (csv_name m) header with
           | Some i => ret (dict_set key (i, snd value) rd, toRemove)
           | None =>
               emit (PrintWarning key) ;;; ret (rd, toRemove ++ [key])
           end
       end)
    (indexed_metrics header pre ++ indexed_metrics [] suf, toRemove)
    (indexed_metrics [] suf)
  = (map PrintWarning (missing_metrics header suf),
     Ok (indexed_metrics header (pre ++ suf),
         toRemove ++ missing_metrics header suf)).
Proof.
  intros ND. induction suf as [|[k m] suf IH]; intros pre tr E.
  - simpl. now rewrite !app_nil_r.
  - assert (G : dict_get k qm = Some m).
    { apply dict_get_in; [exact ND|]. rewrite E. apply in_elt. }
    assert (NI : ~ In k (map fst (indexed_metrics header pre))).
    { rewrite E, map_app in ND. apply NoDup_remove_2 in ND.
      intros I. apply ND. apply in_or_app. left.
      unfold indexed_metrics in I. rewrite map_map in I.
      erewrite map_ext in I; [exact I|]. now intros [? ?]. }
    assert (IM : forall h, indexed_metrics h (pre ++ [(k, m)])
                 = indexed_metrics h pre
                   ++ [(k, (match list_index (csv_name m) h with
                            | Some i => i | None => O end, []))]).
    { intros h. unfold indexed_metrics. now rewrite map_app. }
    specialize (IH (pre ++ [(k, m)])).
    rewrite IM, <- !app_assoc in IH. cbn [app] in IH.
    change (indexed_metrics [] ((k, m) :: suf))
      with ((k, (O, @nil float)) :: indexed_metrics [] suf).
    cbn [for_fold]. rewrite G. cbn [snd].
    destruct (list_index (csv_name m) header) as [i|] eqn:LI.
    + rewrite bind_ret_l, (dict_set_app _ _ _ _ _ NI).
      etransitivity; [exact (IH tr E)|].
      simpl. now rewrite LI.
    + rewrite bind_assoc. unfold emit at 1. cbn [bind].
      rewrite bind_ret_l.
      match goal with
      | |- (let (tr', o) := ?x in _) = _ =>
          replace x with (map PrintWarning (missing_metrics header suf),
                          Ok (indexed_metrics header (pre ++ (k, m) :: suf),
                              (tr ++ [k]) ++ missing_metrics header suf))
            by (symmetry; exact (IH (tr ++ [k]) E))
      end.
      simpl. rewrite LI. simpl. now rewrite <- app_assoc.
Qed.

Lemma find_columns_spec header :
  find_columns args header (empty_results args)
  = (map PrintWarning (missing_metrics header (qualityMetrics args)),
     Ok (indexed_metrics header (qualityMetrics args),
         missing_metrics header (qualityMetrics args))).
Proof.
  unfold find_columns.
  change (empty_results args) with (indexed_metrics [] (qualityMetrics args)).
  exact (find_columns_loop (qualityMetrics args) header qualityMetrics_nodup
           (qualityMetrics args) [] [] eq_refl).
Qed.

(** Lines 314-316 leave the metrics whose column was found. *)
Lemma remove_missing header (qm : dict Metric) :
  NoDup (map fst qm) ->
  remove_metrics (missing_metrics header qm) (indexed_metrics header qm)
  = located_metrics header qm.
Proof.
  unfold remove_metrics.
  induction qm as [|[k m] qm IH]; intros ND; [reflexivity|].
  inversion ND as [|? ? NI ND']; subst. simpl.
  destruct (list_index (csv_name m) header) as [i|]; simpl.
  - rewrite pop_others, (IH ND'); [reflexivity|].
    intros I. apply NI. now apply missing_metrics_keys in I.
  - rewrite String.eqb_refl. now apply IH.
Qed.


(** Lines 320-326 for one row: every cell is read; a cell that converts is
    appended, one that does not is skipped; a cell that is not there
    raises [IndexError]. *)
Lemma read_row_spec row rd :
  read_row lib row rd
  = if row_fits row rd
    then ([], Ok (add_rows lib [row] rd))
    else ([], Stop (Raised IndexError)).
Proof.
  induction rd as [|[k [i s]] rd IH]; [reflexivity|].
  cbn [read_row row_fits forallb fst snd].
  destruct (nth_error row i) as [cell|] eqn:N.
  - assert (L : (i <? List.length row)%nat = true).
    { apply Nat.ltb_lt, nth_error_Some. congruence. }
    rewrite L, IH. cbn [andb]. fold (row_fits row rd).
    destruct (row_fits row rd); [|reflexivity].
    cbn [bind ret app]. unfold add_rows. cbn [map fst snd].
    unfold column_samples, cell_sample. cbn [flat_map]. rewrite N.
    rewrite app_nil_r.
    now destruct (py_float lib (py_strip lib cell)); rewrite ?app_nil_r.
  - assert (L : (i <? List.length row)%nat = false).
    { apply Nat.ltb_ge, nth_error_None. exact N. }
    now rewrite L.
Qed.

Lemma row_fits_add_rows row rows rd :
  row_fits row (add_rows lib rows rd) = row_fits row rd.
Proof.
  unfold row_fits, add_rows.
  induction rd as [|e rd IH]; simpl; now rewrite ?IH.
Qed.

Lemma rows_fit_add_rows rows rows' rd :
  forallb (fun row => row_fits row (add_rows lib rows' rd)) rows
  = forallb (fun row => row_fits row rd) rows.
Proof.
  induction rows as [|row rows IH]; simpl; [reflexivity|].
  now rewrite row_fits_add_rows, IH.
Qed.

Lemma add_rows_cons row rows rd :
  add_rows lib rows (add_rows lib [row] rd) = add_rows lib (row :: rows) rd.
Proof.
  unfold add_rows. rewrite map_map. apply map_ext. intros [k [i s]].
  cbn [fst snd]. unfold column_samples. cbn [flat_map].
  now rewrite app_nil_r, <- app_assoc.
Qed.

Lemma bind_nil_ok {A B} (a : A) (k : A -> M B) : bind ([], Ok a) k = k a.
Proof. exact (bind_ret_l a k). Qed.

(** Lines 318-326. *)
Lemma read_rows_spec rows :
  forall rd,
    read_rows lib rows rd
    = if forallb (fun row => row_fits row rd) rows
      then ([], Ok (add_rows lib rows rd))
      else ([], Stop (Raised IndexError)).
Proof.
  unfold read_rows.
  induction rows as [|row rows IH]; intros rd; cbn [for_fold forallb].
  - unfold ret, add_rows. f_equal. f_equal.
    rewrite <- (map_id rd) at 1. apply map_ext. intros [k [i s]].
    cbn. now rewrite app_nil_r.
  - rewrite read_row_spec. destruct (row_fits row rd); [|reflexivity].
    rewrite bind_nil_ok, IH. cbn [andb].
    rewrite rows_fit_add_rows.
    now rewrite add_rows_cons.
Qed.

(** Lines 290-326 for a file that exists. *)
Lemma aggregate_file_spec f :
  path_exists w f = true ->
  aggregate_file lib w args f
  = (OpenCsv f
       :: map PrintWarning
              (missing_metrics (header_row (csv_rows w f))
                               (qualityMetrics args)),
     let rd := located_metrics (header_row (csv_rows w f))
                               (qualityMetrics args) in
     if forallb (fun row => row_fits row rd) (tl (csv_rows w f))
     then Ok (add_rows lib (tl (csv_rows w f)) rd)
     else Stop (Raised IndexError)).
Proof.
  intros X. unfold aggregate_file. rewrite X, find_columns_spec.
  cbn [emit bind]. rewrite remove_missing by apply qualityMetrics_nodup.
  rewrite read_rows_spec. cbv zeta.
  destruct (forallb _ _); cbn; now rewrite app_nil_r.
Qed.

End Aggregation.

Section AggregationClaims.

Variable lib : PyLib.
Variable w : World.
Variable args : Args.


Lemma located_metrics_in header (qm : dict Metric) e :
  In e (located_metrics header qm) ->
  exists m, In (fst e, m) qm /\
            list_index (csv_name m) header = Some (fst (snd e)).
Proof.
  unfold located_metrics. rewrite in_flat_map.
  intros ([k0 m0] & I & J). destruct (list_index _ _) eqn:E; [|elim J].
  destruct J as [<-|[]]. now exists m0.
Qed.




Lemma aggregate_stops_first f rest tr t :
  aggregate_file lib w args f = (tr, Stop t) ->
  aggregate lib w args (f :: rest) = (tr, Stop t).
Proof.
  intros E. unfold aggregate. cbn [for_fold]. now rewrite E.
Qed.

Lemma stops_in_aggregate tr0 v tr t :
  before_aggregate lib w args = (tr0, Ok v) ->
  aggregate lib w args v = (tr, Stop t) ->
  main lib w args = (tr0 ++ tr, Stopped t).
Proof.
  intros E C. apply main_stops. rewrite main_body_from_aggregate.
  rewrite (bind_ok _ _ _ _ E). unfold from_aggregate. now rewrite C.
Qed.


End AggregationClaims.



(** * Further properties *)

(** ** Help, version and tool verification *)

Section Startup.

Variable lib : PyLib.
Variable w : World.
Variable args : Args.

(** X1. With [--version], [--help] or [--full-help] the run prints the
    text asked for and exits with status 0, before any tool is run and
    before any file is looked at; the version wins over the help, and the
    help over the full help. *)
Theorem peripheral_flags_exit :
  version args = true \/ help args = true \/ full_help args = true ->
  main lib w args
  = ((if version args then [PrintVersion]
      else if help args then [PrintHelp; PrintHelpBottom]
      else [PrintHelp; PrintHelpFull; PrintHelpBottom]),
     Stopped (SysExit None)) /\
  exit_status (snd (main lib w args)) = 0.
Proof.
  intros H.
  assert (E : main lib w args
              = ((if version args then [PrintVersion]
                  else if help args then [PrintHelp; PrintHelpBottom]
                  else [PrintHelp; PrintHelpFull; PrintHelpBottom]),
                 Stopped (SysExit None))).
  { apply main_stops. unfold main_body. apply bind_stop.
    unfold peripheral.
    destruct (version args), (help args), (full_help args);
      try reflexivity.
    destruct H as [H|[H|H]]; discriminate H. }
  split; [exact E|]. now rewrite E.
Qed.

Lemma peripheral_passes :
  version args = false -> help args = false -> full_help args = false ->
  peripheral args = ([], Ok tt).
Proof. intros V H F. unfold peripheral. now rewrite V, H, F. Qed.

Lemma verify_tools_passes :
  (forall c, In c (map snd tools) -> tool_ok w c = true) ->
  verify_tools w = (tools_trace, Ok tt).
Proof.
  intros T. unfold verify_tools, tools. cbn [for_each].
  rewrite !T by (simpl; tauto). reflexivity.
Qed.

(** X2. The tools are verified in the order FFmpeg, FFprobe, VMAF; the
    first one whose command fails ends the run with the message that
    names it, exit status 1, and the tools after it are not tried; no
    media file has been looked at by then. *)
Theorem missing_tool_exit :
  version args = false -> help args = false -> full_help args = false ->
  (exists c, In c (map snd tools) /\ tool_ok w c = false) ->
  exists tool n,
    nth_error tools n = Some tool /\
    tool_ok w (snd tool) = false /\
    (forall k t, (k < n)%nat -> nth_error tools k = Some t ->
                 tool_ok w (snd t) = true) /\
    main lib w args
    = (firstn (2 * S n) tools_trace,
       Stopped (SysExit (Some (dquote ++ fst tool ++ dquote
                               ++ " not found")%string))) /\
    exit_status (snd (main lib w args)) = 1.
Proof.
  intros V H F (c & I & N).
  assert (R : forall tr t, verify_tools w = (tr, Stop t) ->
                           main lib w args = (tr, Stopped t)).
  { intros tr t E. apply main_stops. unfold main_body.
    rewrite (peripheral_passes V H F), bind_nil_ok. now apply bind_stop. }
  assert (K : forall k t, (k < 0)%nat -> nth_error tools k = Some t ->
                          tool_ok w (snd t) = true) by (intros; lia).
  destruct (tool_ok w ["ffmpeg"; "-version"]) eqn:T1.
  2:{ exists ("FFmpeg", ["ffmpeg"; "-version"]), 0%nat.
      rewrite (R (firstn 2 tools_trace)
                 (SysExit (Some (dquote ++ "FFmpeg" ++ dquote
                                 ++ " not found")%string))).
      - repeat split; try assumption.
      - unfold verify_tools, tools. cbn [for_each]. now rewrite T1. }
  destruct (tool_ok w ["ffprobe"; "-version"]) eqn:T2.
  2:{ exists ("FFprobe", ["ffprobe"; "-version"]), 1%nat.
      rewrite (R (firstn 4 tools_trace)
                 (SysExit (Some (dquote ++ "FFprobe" ++ dquote
                                 ++ " not found")%string))).
      - repeat split; try assumption.
        intros k t L E. destruct k as [|k]; [|lia].
        injection E as <-. exact T1.
      - unfold verify_tools, tools. cbn [for_each]. now rewrite T1, T2. }
  destruct (tool_ok w ["ffmpeg"; "-filters"; "|"; "grep"; "libvmaf"])
    eqn:T3.
  { exfalso. simpl in I. destruct I as [<-|[<-|[<-|[]]]]; congruence. }
  exists ("VMAF", ["ffmpeg"; "-filters"; "|"; "grep"; "libvmaf"]), 2%nat.
  rewrite (R (firstn 6 tools_trace)
             (SysExit (Some (dquote ++ "VMAF" ++ dquote
                             ++ " not found")%string))).
  - repeat split; try assumption.
    intros k t L E. destruct k as [|[|k]]; [| |lia]; injection E as <-;
      assumption.
  - unfold verify_tools, tools. cbn [for_each]. now rewrite T1, T2, T3.
Qed.

End Startup.

Lemma peripheral_flags_exit_witness :
  main ex_lib (ex_world 12 1920 1080 1920 1080 ex_rows) ex_args_help
  = ([PrintHelp; PrintHelpBottom], Stopped (SysExit None)).
Proof.
  exact (proj1 (peripheral_flags_exit ex_lib
                  (ex_world 12 1920 1080 1920 1080 ex_rows) ex_args_help
                  (or_intror (or_introl eq_refl)))).
Defined.

Lemma missing_tool_exit_witness :
  exists tool n,
    nth_error tools n = Some tool /\
    main ex_lib ex_world_no_ffprobe (ex_args (Some 1) (Some 1) None false)
    = (firstn (2 * S n) tools_trace,
       Stopped (SysExit (Some (dquote ++ fst tool ++ dquote
                               ++ " not found")%string))).
Proof.
  destruct (missing_tool_exit ex_lib ex_world_no_ffprobe
              (ex_args (Some 1) (Some 1) None false)
              eq_refl eq_refl eq_refl
              (ex_intro _ ["ffprobe"; "-version"]
                        (conj (or_intror (or_introl eq_refl)) eq_refl)))
    as (tool & n & E & _ & _ & M & _).
  exists tool, n. split; assumption.
Defined.

(** ** File names *)

Section FileNames.

Variable lib : PyLib.
Variable w : World.
Variable args : Args.

(** A loop of checks stops at the first element that fails, without a
    trace of the ones that passed. *)
Lemma for_each_first_stop {A} (body : A -> M unit) pre x rest t :
  (forall y, In y pre -> body y = ([], Ok tt)) ->
  body x = ([], Stop t) ->
  for_each body (pre ++ x :: rest) = ([], Stop t).
Proof.
  intros P X. induction pre as [|y pre IH]; cbn [app for_each].
  - now rewrite X.
  - rewrite (P y (or_introl eq_refl)), bind_nil_ok. apply IH.
    intros z I. apply P. now right.
Qed.

Lemma stops_in_scan tr t :
  version args = false -> help args = false -> full_help args = false ->
  (forall c, In c (map snd tools) -> tool_ok w c = true) ->
  scan_media w args = (tr, Stop t) ->
  main lib w args = (tools_trace ++ tr, Stopped t).
Proof.
  intros V H F T E. apply main_stops. unfold main_body.
  rewrite (peripheral_passes _ V H F), bind_nil_ok.
  rewrite (bind_ok _ _ _ _ (verify_tools_passes _ T)).
  now rewrite (bind_stop _ _ _ _ E).
Qed.

(** X3. Once the tools are verified the file names are checked before
    any file is probed: without [--reference] the run ends in a
    [TypeError]; a reference that does not exist ends it with a message
    that names it; otherwise the first distorted video that does not
    exist ends it with a message that names that video.  In each case
    the trace ends at the scanning banner: FFprobe has not been run. *)
Theorem missing_file_exit :
  version args = false -> help args = false -> full_help args = false ->
  (forall c, In c (map snd tools) -> tool_ok w c = true) ->
  (reference args = None ->
   main lib w args
   = (tools_trace ++ [PrintScanning], Stopped (Raised TypeError))) /\
  (forall r,
      reference args = Some r -> path_exists w r = false ->
      main lib w args
      = (tools_trace ++ [PrintScanning],
         Stopped (SysExit (Some ("Error, reference video file " ++ r
                                 ++ " does not exist")%string)))) /\
  (forall r pre f rest,
      reference args = Some r -> path_exists w r = true ->
      file args = pre ++ f :: rest ->
      (forall g, In g pre -> path_exists w g = true) ->
      path_exists w f = false ->
      main lib w args
      = (tools_trace ++ [PrintScanning],
         Stopped (SysExit (Some ("Error, distorted video file " ++ f
                                 ++ " does not exist")%string)))).
Proof.
  intros V H F T. repeat split.
  - intros R. apply (stops_in_scan _ _ V H F T).
    unfold scan_media. now rewrite R.
  - intros r R X. apply (stops_in_scan _ _ V H F T).
    unfold scan_media. now rewrite R, X.
  - intros r pre f rest R X E P N. apply (stops_in_scan _ _ V H F T).
    unfold scan_media. rewrite R, X, E.
    rewrite (for_each_first_stop _ pre f rest
               (SysExit (Some ("Error, distorted video file " ++ f
                               ++ " does not exist")%string))).
    + reflexivity.
    + intros g I. now rewrite (P g I).
    + now rewrite N.
Qed.

End FileNames.

Lemma missing_file_exit_witness :
  main ex_lib ex_world_no_video (ex_args (Some 1) (Some 1) None false)
  = (tools_trace ++ [PrintScanning],
     Stopped (SysExit (Some "Error, distorted video file d1.mp4 does not exist"))).
Proof.
  destruct (missing_file_exit ex_lib ex_world_no_video
              (ex_args (Some 1) (Some 1) None false)
              eq_refl eq_refl eq_refl (fun _ _ => eq_refl))
    as (_ & _ & K).
  exact (K "ref.mkv" [] "d1.mp4" [] eq_refl eq_refl eq_refl
           (fun _ (I : In _ []) => match I with end) eq_refl).
Defined.

(** ** Model and output files *)

Section Outputs.

Variable lib : PyLib.
Variable w : World.
Variable args : Args.

Lemma main_body_from_output :
  main_body lib w args
  = x <- before_output w args ;; from_output lib w args x.
Proof.
  rewrite main_body_from_reconcile.
  unfold before_output, before_model, from_output, from_reconcile.
  rewrite ?bind_assoc. apply bind_ext; intros s.
  rewrite ?bind_assoc. apply bind_ext; intros c.
  rewrite bind_ret_l, bind_assoc. apply bind_ext; intros _.
  now rewrite bind_ret_l.
Qed.

Lemma plan_silent_before_model : silent is_plan (before_model w args).
Proof.
  unfold before_model. apply silent_bind.
  - apply plan_silent_before_reconcile.
  - intros s. apply silent_bind; [apply plan_silent_reconcile|].
    intros; apply silent_ret.
Qed.

Lemma plan_silent_before_output : silent is_plan (before_output w args).
Proof.
  unfold before_output. apply silent_bind.
  - apply plan_silent_before_model.
  - intros x. unfold check_model. silence.
Qed.

(** The first element of a list that satisfies a test. *)
Lemma first_such {A} (p : A -> bool) l :
  (exists x, In x l /\ p x = true) ->
  exists pre x rest,
    l = pre ++ x :: rest /\ p x = true /\
    forall y, In y pre -> p y = false.
Proof.
  induction l as [|a l IH]; intros (x & I & Px); [elim I|].
  destruct (p a) eqn:Pa.
  - exists [], a, l. repeat split; [assumption|]. intros y [].
  - destruct IH as (pre & y & rest & -> & Py & N).
    { destruct I as [<-|I]; [congruence|]. now exists x. }
    exists (a :: pre), y, rest. repeat split; [assumption|].
    intros z [<-|I']; auto.
Qed.

(** Lines 204-209, from any point of the loop on. *)
Lemma output_files_loop files :
  forall vmafOut,
    (dry_run args = true \/
     forall f, In f files -> path_exists w (quality_csv lib f) = false) ->
    for_fold
      (fun vmafOut f =>
         let out := (py_stem lib f ++ "-quality.csv")%string in
         if negb (dry_run args) && path_exists w out
         then exit_ (Some ("Output file already exists: " ++ out)%string)
         else ret (vmafOut ++ [out]))
      vmafOut files
    = ([], Ok (vmafOut ++ map (quality_csv lib) files)).
Proof.
  induction files as [|f files IH]; intros acc H; cbn [for_fold map].
  - now rewrite app_nil_r.
  - cbv zeta. fold (quality_csv lib f).
    assert (G : negb (dry_run args) && path_exists w (quality_csv lib f)
                = false).
    { destruct H as [-> | H]; [reflexivity|].
      rewrite (H f (or_introl eq_refl)). apply andb_false_r. }
    rewrite G, bind_ret_l, IH.
    + now rewrite <- app_assoc.
    + destruct H as [H|H]; [now left|right]. intros g I. apply H. now right.
Qed.

Lemma output_files_loop_stop pre f rest :
  dry_run args = false ->
  (forall g, In g pre -> path_exists w (quality_csv lib g) = false) ->
  path_exists w (quality_csv lib f) = true ->
  forall vmafOut,
    for_fold
      (fun vmafOut f =>
         let out := (py_stem lib f ++ "-quality.csv")%string in
         if negb (dry_run args) && path_exists w out
         then exit_ (Some ("Output file already exists: " ++ out)%string)
         else ret (vmafOut ++ [out]))
      vmafOut (pre ++ f :: rest)
    = ([], Stop (SysExit (Some ("Output file already exists: "
                                ++ quality_csv lib f)%string))).
Proof.
  intros D P X.
  induction pre as [|g pre IH]; intros acc; cbn [app for_fold]; cbv zeta.
  - fold (quality_csv lib f).
    assert (G : negb (dry_run args) && path_exists w (quality_csv lib f)
                = true) by now rewrite D, X.
    now rewrite G.
  - fold (quality_csv lib g).
    assert (G : negb (dry_run args) && path_exists w (quality_csv lib g)
                = false)
      by (rewrite (P g (or_introl eq_refl)); apply andb_false_r).
    rewrite G, bind_ret_l. apply IH. intros h I. apply P. now right.
Qed.

Lemma output_files_stop pre f rest :
  dry_run args = false ->
  file args = pre ++ f :: rest ->
  (forall g, In g pre -> path_exists w (quality_csv lib g) = false) ->
  path_exists w (quality_csv lib f) = true ->
  output_files lib w args
  = ([], Stop (SysExit (Some ("Output file already exists: "
                              ++ quality_csv lib f)%string))).
Proof.
  intros D E P X. unfold output_files. rewrite E.
  now apply output_files_loop_stop.
Qed.

(** What a successful check of the output files returns. *)
Lemma output_files_ok tr vmafOut :
  output_files lib w args = (tr, Ok vmafOut) ->
  tr = [] /\
  vmafOut = map (quality_csv lib) (file args) /\
  (dry_run args = false ->
   forall f, In f (file args) -> path_exists w (quality_csv lib f) = false).
Proof.
  intros E.
  destruct (dry_run args) eqn:D.
  - unfold output_files in E.
    rewrite output_files_loop in E by now left.
    injection E as <- <-. repeat split. discriminate.
  - destruct (existsb (fun f => path_exists w (quality_csv lib f))
                      (file args)) eqn:X.
    + apply existsb_exists in X.
      apply first_such in X as (pre & f & rest & F & Pf & N).
      rewrite (output_files_stop pre f rest D F N Pf) in E. discriminate E.
    + assert (N : forall f, In f (file args) ->
                            path_exists w (quality_csv lib f) = false).
      { intros f I. destruct (path_exists w (quality_csv lib f)) eqn:Pf;
          [|reflexivity].
        assert (Y : existsb (fun f => path_exists w (quality_csv lib f))
                            (file args) = true)
          by (apply existsb_exists; now exists f).
        congruence. }
      unfold output_files in E.
      rewrite output_files_loop in E by now right.
      injection E as <- <-. repeat split. intros _. exact N.
Qed.

Lemma stops_before_output tr t :
  before_output w args = (tr, Stop t) -> main lib w args = (tr, Stopped t).
Proof.
  intros E. apply main_stops. rewrite main_body_from_output.
  now apply bind_stop.
Qed.

Lemma stops_in_output tr0 x tr t :
  before_output w args = (tr0, Ok x) ->
  output_files lib w args = (tr, Stop t) ->
  main lib w args = (tr0 ++ tr, Stopped t).
Proof.
  intros E C. apply main_stops. rewrite main_body_from_output.
  rewrite (bind_ok _ _ _ _ E). unfold from_output. now rewrite C.
Qed.

(** X4. When the run is not a dry run and the CSV file of some distorted
    video already exists, the run stops without returning from [main]
    and no FFmpeg command is built: the check covers every video before
    the first command.  A run that reaches the check exits with the
    message that names the first such CSV file, exit status 1.  A dry
    run never fails on an existing CSV file. *)
Theorem output_exists_aborts :
  (dry_run args = true ->
   output_files lib w args
   = ([], Ok (map (quality_csv lib) (file args)))) /\
  (dry_run args = false ->
   (exists f, In f (file args) /\
              path_exists w (quality_csv lib f) = true) ->
   Forall (fun e => is_plan e = false) (fst (main lib w args)) /\
   snd (main lib w args) <> Returned /\
   (forall tr0 x,
       before_output w args = (tr0, Ok x) ->
       exists pre g rest,
         file args = pre ++ g :: rest /\
         (forall h, In h pre -> path_exists w (quality_csv lib h) = false) /\
         path_exists w (quality_csv lib g) = true /\
         main lib w args
         = (tr0,
            Stopped (SysExit (Some ("Output file already exists: "
                                    ++ quality_csv lib g)%string))))).
Proof.
  split.
  - intros D. unfold output_files. rewrite output_files_loop by now left.
    reflexivity.
  - intros D X.
    apply (first_such (fun f => path_exists w (quality_csv lib f))) in X
      as (pre & g & rest & F & Pg & N).
    pose proof (output_files_stop pre g rest D F N Pg) as O.
    pose proof plan_silent_before_output as S. unfold silent in S.
    repeat split.
    + destruct (before_output w args) as [tr0 [x|t]] eqn:E.
      * rewrite (stops_in_output _ _ _ _ E O). simpl.
        now rewrite app_nil_r.
      * now rewrite (stops_before_output _ _ E).
    + destruct (before_output w args) as [tr0 [x|t]] eqn:E.
      * rewrite (stops_in_output _ _ _ _ E O). discriminate.
      * rewrite (stops_before_output _ _ E). discriminate.
    + intros tr0 x E. exists pre, g, rest. repeat split; try assumption.
      rewrite (stops_in_output _ _ _ _ E O). now rewrite app_nil_r.
Qed.

Lemma stops_in_model tr0 x tr t :
  before_model w args = (tr0, Ok x) ->
  check_model w args = (tr, Stop t) ->
  main lib w args = (tr0 ++ tr, Stopped t).
Proof.
  intros E C. apply stops_before_output. unfold before_output.
  rewrite (bind_ok _ _ _ _ E). now rewrite C.
Qed.

(** X5. When [--model] names a file that does not exist, the run stops
    without returning from [main] and no FFmpeg command is built; a run
    that reaches the check exits with the message that names the model,
    exit status 1.  An empty model name is no model at all. *)
Theorem missing_model_exit m :
  model args = Some m -> path_exists w m = false ->
  (m = EmptyString -> check_model w args = ([], Ok tt)) /\
  (m <> EmptyString ->
   Forall (fun e => is_plan e = false) (fst (main lib w args)) /\
   snd (main lib w args) <> Returned /\
   forall tr0 x,
     before_model w args = (tr0, Ok x) ->
     main lib w args
     = (tr0, Stopped (SysExit (Some ("Model file does not exists: "
                                     ++ m)%string)))).
Proof.
  intros M X. split.
  - intros ->. unfold check_model. now rewrite M.
  - intros NE.
    assert (C : check_model w args
                = ([], Stop (SysExit (Some ("Model file does not exists: "
                                            ++ m)%string)))).
    { unfold check_model. rewrite M, X.
      destruct m; [now elim NE|reflexivity]. }
    pose proof plan_silent_before_model as S. unfold silent in S.
    destruct (before_model w args) as [tr0 [x|t]] eqn:E.
    + rewrite (stops_in_model _ _ _ _ E C), app_nil_r. simpl.
      repeat split; [exact S|discriminate|].
      now intros ? ? [= <- <-].
    + assert (B : before_output w args = (tr0, Stop t))
        by (unfold before_output; now rewrite E).
      rewrite (stops_before_output _ _ B). simpl.
      repeat split; [exact S|discriminate|]. discriminate.
Qed.

End Outputs.

Lemma output_exists_aborts_witness :
  main ex_lib (ex_world 12 1920 1080 1920 1080 ex_rows)
       (ex_args_run (Some 1) (Some 1))
  = (tools_trace
       ++ [PrintScanning; Probe "ref.mkv"; Probe "ref.mkv"; Probe "ref.mkv";
           Probe "d1.mp4"; Probe "d1.mp4"; Probe "d1.mp4";
           PrintVerifyingArguments],
     Stopped (SysExit (Some "Output file already exists: d1-quality.csv"))).
Proof.
  destruct (output_exists_aborts ex_lib
              (ex_world 12 1920 1080 1920 1080 ex_rows)
              (ex_args_run (Some 1) (Some 1))) as (_ & K).
  destruct (K eq_refl (ex_intro _ "d1.mp4" (conj (or_introl eq_refl) eq_refl)))
    as (_ & _ & R).
  destruct (R _ _ eq_refl) as (pre & g & rest & F & _ & _ & E).
  destruct pre as [|p pre]; [|destruct pre; discriminate F].
  injection F as <- _. exact E.
Defined.

Lemma missing_model_exit_witness :
  snd (main ex_lib (ex_world_fresh 12 1920 1080 1920 1080)
            (ex_args_model "vmaf_4k.json"))
  = Stopped (SysExit (Some "Model file does not exists: vmaf_4k.json")).
Proof.
  destruct (missing_model_exit ex_lib (ex_world_fresh 12 1920 1080 1920 1080)
              (ex_args_model "vmaf_4k.json") "vmaf_4k.json"
              eq_refl eq_refl) as (_ & K).
  destruct K as (_ & _ & R); [intros X; discriminate X|].
  now rewrite (R _ _ eq_refl).
Defined.

(** ** The FFmpeg commands *)

Section Commands.

Variable lib : PyLib.
Variable w : World.
Variable args : Args.

Lemma commands_of_app tr1 tr2 :
  commands_of (tr1 ++ tr2) = commands_of tr1 ++ commands_of tr2.
Proof. apply flat_map_app. Qed.

Lemma commands_of_silent tr :
  Forall (fun e => is_plan e = false) tr -> commands_of tr = [].
Proof.
  induction 1 as [|e tr E _ IH]; [reflexivity|].
  cbn [commands_of flat_map]. fold (commands_of tr). rewrite IH.
  now destruct e.
Qed.

(** Lines 216-283 print one command per distorted video, in order. *)
Lemma vmaf_calculation_spec refPath cropString :
  vmaf_calculation args refPath cropString
                   (map (quality_csv lib) (file args))
  = (flat_map
       (fun f => [PrintBlank;
                  PrintCommand (ffmpegCommand args refPath cropString f
                                              (quality_csv lib f));
                  PrintBlank])
       (file args),
     Ok tt).
Proof.
  unfold vmaf_calculation. generalize (file args) as l.
  induction l as [|f l IH]; [reflexivity|].
  cbn [map combine for_each flat_map]. rewrite IH. reflexivity.
Qed.

Lemma commands_of_calculation refPath cropString l :
  commands_of
    (flat_map
       (fun f => [PrintBlank;
                  PrintCommand (ffmpegCommand args refPath cropString f
                                              (quality_csv lib f));
                  PrintBlank])
       l)
  = map (fun f => ffmpegCommand args refPath cropString f
                                (quality_csv lib f)) l.
Proof.
  induction l as [|f l IH]; [reflexivity|].
  cbn [flat_map map]. rewrite commands_of_app, IH. reflexivity.
Qed.

Lemma plan_silent_from_aggregate v :
  silent is_plan (from_aggregate lib w args v).
Proof.
  unfold from_aggregate, aggregate, aggregate_file, find_columns, read_rows,
    report, report_metric.
  silence; try apply silent_read_row; silence.
Qed.

Lemma report_silent_before_aggregate :
  silent is_report (before_aggregate lib w args).
Proof.
  unfold before_aggregate, before_reconcile, before_range, peripheral,
    verify_tools, scan_media, query, check_range, range_invalid, reconcile,
    check_mismatch, check_model, output_files, vmaf_calculation.
  silence.
Qed.

(** What a run that reaches the aggregation has gone through. *)
Lemma before_aggregate_ok tr vmafOut :
  before_aggregate lib w args = (tr, Ok vmafOut) ->
  exists tr0 s tr1 cropString,
    before_reconcile w args = (tr0, Ok s) /\
    reconcile args (refWidth s) (refHeight s) (distWidth s) (distHeight s)
    = (tr1, Ok cropString) /\
    output_files lib w args = ([], Ok vmafOut) /\
    vmafOut = map (quality_csv lib) (file args) /\
    tr = tr0 ++ tr1
         ++ fst (vmaf_calculation args (refPath s) cropString vmafOut).
Proof.
  unfold before_aggregate. intros E.
  apply bind_ok_inv in E as (tr0 & s & r0 & B & E & ->).
  apply bind_ok_inv in E as (tr1 & c & r1 & R & E & ->).
  apply bind_ok_inv in E as (tr2 & [] & r2 & M & E & ->).
  apply bind_ok_inv in E as (tr3 & v & r3 & O & E & ->).
  apply bind_ok_inv in E as (tr4 & [] & r4 & C & E & ->).
  injection E as <- <-.
  destruct (output_files_ok _ _ _ _ _ O) as (-> & V & _).
  assert (T2 : tr2 = []).
  { unfold check_model in M.
    destruct (truthy_str (model args)); [|now injection M].
    destruct (path_exists w _); [now injection M|discriminate M]. }
  subst tr2. exists tr0, s, tr1, c. rewrite C. simpl.
  repeat split; try assumption. now rewrite app_nil_r.
Qed.

(** X6. A run that reaches the aggregation has printed exactly one FFmpeg
    command per distorted video, in the order of the command line, and
    prints no other; the command of a video reads that video, the
    reference given by [--reference] and the crop string of the crop
    conversion, and logs to the CSV file named after the video. *)
Theorem one_command_per_file tr vmafOut :
  before_aggregate lib w args = (tr, Ok vmafOut) ->
  exists s cropString,
    reference args = Some (refPath s) /\
    (exists tr',
        reconcile args (refWidth s) (refHeight s) (distWidth s) (distHeight s)
        = (tr', Ok cropString)) /\
    vmafOut = map (quality_csv lib) (file args) /\
    commands_of (fst (main lib w args))
    = map (fun f => ffmpegCommand args (refPath s) cropString f
                                  (quality_csv lib f))
          (file args).
Proof.
  intros E. pose proof E as E'.
  apply before_aggregate_ok in E' as (tr0 & s & tr1 & c & B & R & _ & V & T).
  exists s, c. repeat split.
  - apply before_reconcile_ok in B as (? & B).
    apply before_range_ok in B as (? & B).
    now apply scan_media_ok in B.
  - now exists tr1.
  - exact V.
  - rewrite main_trace, main_body_from_aggregate, (bind_ok _ _ _ _ E).
    cbn [fst]. rewrite T, !commands_of_app.
    rewrite (commands_of_silent tr0), (commands_of_silent tr1).
    + rewrite (commands_of_silent (fst (from_aggregate lib w args vmafOut)))
        by apply plan_silent_from_aggregate.
      rewrite V, vmaf_calculation_spec. cbn [fst app].
      now rewrite commands_of_calculation, app_nil_r.
    + pose proof (plan_silent_reconcile args (refWidth s) (refHeight s)
                    (distWidth s) (distHeight s)) as S.
      unfold silent in S. now rewrite R in S.
    + pose proof (plan_silent_before_reconcile w args) as S.
      unfold silent in S. now rewrite B in S.
Qed.

(** X7. A run that is not a dry run, on at least one distorted video,
    never reads a CSV file, never prints a warning, a file name or a
    summary, and never returns from [main]: the check of the output
    files has made sure that the CSV file of the first video does not
    exist, nothing writes it, and a run that gets that far stops on the
    exception raised when the file is opened, with nothing printed after
    the commands. *)
Theorem non_dry_run_never_reports :
  dry_run args = false -> file args <> [] ->
  Forall (fun e => is_report e = false) (fst (main lib w args)) /\
  snd (main lib w args) <> Returned /\
  (forall tr0 vmafOut,
      before_aggregate lib w args = (tr0, Ok vmafOut) ->
      exists f rest e,
        file args = f :: rest /\
        path_exists w (quality_csv lib f) = false /\
        main lib w args = (tr0, Stopped (Raised e))).
Proof.
  intros D NE.
  assert (F : forall tr0 vmafOut,
             before_aggregate lib w args = (tr0, Ok vmafOut) ->
             exists f rest,
               file args = f :: rest /\
               path_exists w (quality_csv lib f) = false /\
               main lib w args = (tr0, Stopped (Raised FileNotFoundError))).
  { intros tr0 v E. pose proof E as E'.
    apply before_aggregate_ok in E' as (_ & _ & _ & _ & _ & _ & O & V & _).
    apply output_files_ok in O as (_ & _ & N). specialize (N D).
    destruct (file args) as [|f l]; [now elim NE|].
    cbn [map] in V. exists f, l.
    split; [reflexivity|]. split; [apply N; now left|].
    assert (A : aggregate lib w args v
                = ([], Stop (Raised FileNotFoundError))).
    { rewrite V. apply aggregate_stops_first. unfold aggregate_file.
      now rewrite (N f (or_introl eq_refl)). }
    rewrite (stops_in_aggregate _ _ _ _ _ _ _ E A). now rewrite app_nil_r. }
  pose proof report_silent_before_aggregate as S. unfold silent in S.
  destruct (before_aggregate lib w args) as [tr0 [v|t]] eqn:E.
  - destruct (F _ _ eq_refl) as (f & rest & L & X & M).
    rewrite M. simpl. repeat split; [exact S|discriminate|].
    intros ? ? [= <- <-]. exists f, rest, FileNotFoundError. now repeat split.
  - assert (M : main lib w args = (tr0, Stopped t)).
    { apply main_stops. rewrite main_body_from_aggregate.
      now apply bind_stop. }
    rewrite M. simpl. repeat split; [exact S|discriminate|discriminate].
Qed.

End Commands.

Lemma one_command_per_file_witness :
  let a := ex_args (Some 1) (Some 1) (Some "10:10:10:10") true in
  exists s cropString,
    commands_of
      (fst (main ex_lib (ex_world 12 1920 1080 1900 1060 ex_rows) a))
    = [ffmpegCommand a (refPath s) cropString "d1.mp4" "d1-quality.csv"].
Proof.
  destruct (one_command_per_file ex_lib
              (ex_world 12 1920 1080 1900 1060 ex_rows)
              (ex_args (Some 1) (Some 1) (Some "10:10:10:10") true)
              _ _ eq_refl)
    as (s & c & _ & _ & _ & E).
  exists s, c. exact E.
Defined.

Lemma non_dry_run_never_reports_witness :
  exists tr0 e,
    main ex_lib (ex_world_fresh 12 1920 1080 1920 1080)
         (ex_args_run (Some 1) (Some 1))
    = (tr0, Stopped (Raised e)).
Proof.
  assert (NE : file (ex_args_run (Some 1) (Some 1)) <> [])
    by (intros X; discriminate X).
  destruct (non_dry_run_never_reports ex_lib
              (ex_world_fresh 12 1920 1080 1920 1080)
              (ex_args_run (Some 1) (Some 1)) eq_refl NE)
    as (_ & _ & K).
  destruct (K _ _ eq_refl) as (f & rest & e & _ & _ & M).
  eexists. exists e. exact M.
Defined.

(** ** The filter string *)

(** X8. The metric stage of the filter graph is the VMAF log to the CSV
    file followed by the options in a fixed order: model, subsample,
    threads, then PSNR, SSIM and MS-SSIM; an option that is absent, an
    empty model name, a subsample or thread count of 0 and the VMAF entry
    of the metric dictionary add nothing. *)
Theorem filter_string_options args out :
  vmafFilterString args out
  = ("[dist][ref]libvmaf=log_fmt=csv:log_path=" ++ out
     ++ filter_options args)%string.
Proof.
  unfold vmafFilterString, filter_options, qualityMetrics, truthy_str,
    truthy_int.
  destruct (model args) as [[|c m]|], (subsample args) as [n|],
      (threads args) as [t|], (psnr args), (ssim args), (ms_ssim args);
    try destruct (Z.eqb n 0); try destruct (Z.eqb t 0);
    cbn [negb app fold_left String.eqb Ascii.eqb Bool.eqb command];
    rewrite ?append_assoc; cbn [append]; rewrite ?append_nil_r;
    reflexivity.
Qed.

(** ** Aggregation and report *)

Section Report.

Variable lib : PyLib.
Variable w : World.
Variable args : Args.

Lemma for_each_ok {A} (body : A -> M unit) l :
  (forall x, In x l -> exists tr, body x = (tr, Ok tt)) ->
  exists tr, for_each body l = (tr, Ok tt).
Proof.
  induction l as [|x l IH]; intros H; cbn [for_each].
  - now exists [].
  - destruct (H x (or_introl eq_refl)) as (tr1 & E1).
    destruct IH as (tr2 & E2); [intros y I; apply H; now right|].
    exists (tr1 ++ tr2). now rewrite E1, E2.
Qed.


Lemma dict_set_in {V} k (v : V) d k' v' :
  In (k', v') (dict_set k v d) -> v' = v \/ In (k', v') d.
Proof.
  induction d as [|[k0 v0] d IH]; simpl.
  - intros [[= <- <-]|[]]. now left.
  - destruct (String.eqb k k0); simpl.
    + intros [[= <- <-]|I]; auto.
    + intros [E|I]; auto. destruct (IH I); auto.
Qed.

(** The metrics of a results dictionary are requested metrics. *)
Lemma add_rows_keys rows header key value :
  In (key, value)
     (add_rows lib rows (located_metrics header (qualityMetrics args))) ->
  exists m, dict_get key (qualityMetrics args) = Some m.
Proof.
  unfold add_rows. rewrite in_map_iff. intros (e & E & I).
  apply located_metrics_in in I as (m & I & _).
  injection E as <- _. exists m.
  now apply dict_get_in; [apply qualityMetrics_nodup|].
Qed.

(** The aggregation of one file returns requested metrics only, and
    stops on a missing file or on a short row only. *)
Lemma aggregate_file_outcome f :
  match snd (aggregate_file lib w args f) with
  | Ok rd =>
      forall key value,
        In (key, value) rd ->
        exists m, dict_get key (qualityMetrics args) = Some m
  | Stop t => t = Raised FileNotFoundError \/ t = Raised IndexError
  end.
Proof.
  destruct (path_exists w f) eqn:X.
  - rewrite (aggregate_file_spec _ _ _ _ X). cbn [snd]. cbv zeta.
    destruct (forallb _ _); [|now right].
    intros key value. apply add_rows_keys.
  - unfold aggregate_file. rewrite X. now left.
Qed.

Lemma aggregate_outcome vmafOut :
  match snd (aggregate lib w args vmafOut) with
  | Ok fileDictionary =>
      forall filename results key value,
        In (filename, results) fileDictionary ->
        In (key, value) results ->
        exists m, dict_get key (qualityMetrics args) = Some m
  | Stop t => t = Raised FileNotFoundError \/ t = Raised IndexError
  end.
Proof.
  unfold aggregate.
  assert (G : forall fd0 : dict (dict Result),
             (forall filename results key value,
                 In (filename, results) fd0 -> In (key, value) results ->
                 exists m, dict_get key (qualityMetrics args) = Some m) ->
             match snd (for_fold
                          (fun fileDictionary f =>
                             rd <- aggregate_file lib w args f ;;
                             ret (dict_set (py_unsuffix lib f) rd
                                           fileDictionary))
                          fd0 vmafOut) with
             | Ok fileDictionary =>
                 forall filename results key value,
                   In (filename, results) fileDictionary ->
                   In (key, value) results ->
                   exists m, dict_get key (qualityMetrics args) = Some m
             | Stop t => t = Raised FileNotFoundError \/ t = Raised IndexError
             end).
  { induction vmafOut as [|f l IH]; intros fd0 Inv; cbn [for_fold].
    - exact Inv.
    - pose proof (aggregate_file_outcome f) as A.
      destruct (aggregate_file lib w args f) as [tr [rd|t]]; cbn [snd] in A.
      + rewrite bind_assoc. cbn [bind]. rewrite bind_ret_l.
        specialize (IH (dict_set (py_unsuffix lib f) rd fd0)).
        destruct (for_fold _ _ l) as [tr' o]. cbn [snd] in *.
        apply IH. intros filename results key value I J.
        apply dict_set_in in I as [->|I]; [now apply (A key value)|].
        now apply (Inv filename results key value).
      + exact A. }
  apply G. intros ? ? ? ? [].
Qed.

Lemma report_metric_returns key value :
  (exists m, dict_get key (qualityMetrics args) = Some m) ->
  exists tr, report_metric lib args key value = (tr, Ok tt).
Proof.
  intros (m & K). destruct value as [col [|x l]].
  - now exists [].
  - destruct (report_metric_prints lib args key col (x :: l) m)
      as (v & _ & R); [discriminate|exact K|].
    rewrite R. unfold emit. eauto.
Qed.

(** After an aggregation that returns, the report returns. *)
Lemma report_returns vmafOut tr fileDictionary :
  aggregate lib w args vmafOut = (tr, Ok fileDictionary) ->
  exists tr', report lib args fileDictionary = (tr', Ok tt).
Proof.
  intros E. pose proof (aggregate_outcome vmafOut) as Inv.
  rewrite E in Inv. cbn [snd] in Inv.
  unfold report.
  destruct (for_each_ok
              (fun '(filename, results) =>
                 emit (PrintFilename filename) ;;;
                 for_each (fun '(key, value) => report_metric lib args key value)
                          results)
              fileDictionary) as (tr' & R).
  { intros [filename results] I.
    destruct (for_each_ok
                (fun '(key, value) => report_metric lib args key value) results)
      as (tr1 & R1).
    - intros [key value] J. apply report_metric_returns.
      now apply (Inv filename results key value).
    - exists (PrintFilename filename :: tr1). now rewrite R1. }
  exists (PrintBlank :: tr'). now rewrite R.
Qed.

(** X9. Once every CSV file has been aggregated the run cannot fail any
    more: the empty series are skipped before the division, the
    percentile index is inside every other series, and every metric of
    the results is a requested metric, so the report raises neither
    [IndexError] nor [KeyError]; the run ends through the [exit()] of a
    dry run, or returns. *)
Theorem report_never_raises tr0 vmafOut tr fileDictionary :
  before_aggregate lib w args = (tr0, Ok vmafOut) ->
  aggregate lib w args vmafOut = (tr, Ok fileDictionary) ->
  exists tr',
    report lib args fileDictionary = (tr', Ok tt) /\
    main lib w args
    = (tr0 ++ tr ++ tr',
       if dry_run args then Stopped (SysExit None) else Returned).
Proof.
  intros E A. destruct (report_returns _ _ _ A) as (tr' & R).
  exists tr'. split; [exact R|].
  unfold main. rewrite main_body_from_aggregate, (bind_ok _ _ _ _ E).
  unfold from_aggregate. rewrite A. cbn [bind]. rewrite R. cbn [bind].
  destruct (dry_run args); cbn; now rewrite app_nil_r.
Qed.

Lemma before_aggregate_from_output :
  before_aggregate lib w args
  = x <- before_output w args ;;
    vmafOut <- output_files lib w args ;;
    vmaf_calculation args (refPath (fst x)) (snd x) vmafOut ;;;
    ret vmafOut.
Proof.
  unfold before_aggregate, before_output, before_model.
  rewrite ?bind_assoc. apply bind_ext; intros s.
  rewrite ?bind_assoc. apply bind_ext; intros c.
  rewrite bind_ret_l, bind_assoc. apply bind_ext; intros _.
  now rewrite bind_ret_l.
Qed.

(** A run that stops before the aggregation has printed no command. *)
Lemma before_aggregate_stop_silent tr t :
  before_aggregate lib w args = (tr, Stop t) ->
  Forall (fun e => is_plan e = false) tr.
Proof.
  rewrite before_aggregate_from_output.
  pose proof (plan_silent_before_output w args) as S. unfold silent in S.
  destruct (before_output w args) as [tr0 [x|t0]]; cbn [fst] in S.
  2:{ now intros [= <- _]. }
  cbn [bind].
  assert (O : silent is_plan (output_files lib w args))
    by (unfold output_files; silence).
  unfold silent in O.
  destruct (output_files lib w args) as [tr1 [v|t1]]; cbn [fst] in O.
  2:{ cbn. intros [= <- _]. apply Forall_app. now split. }
  cbn [bind].
  destruct (for_each_ok
              (fun '(f, out) =>
                 emit PrintBlank ;;;
                 emit (PrintCommand
                         (ffmpegCommand args (refPath (fst x)) (snd x) f out))
                 ;;; emit PrintBlank)
              (combine (file args) v)) as (tr2 & V).
  { intros [f out] _. eexists. reflexivity. }
  unfold vmaf_calculation. rewrite V. cbn. discriminate.
Qed.

(** X10. Every validation exit comes before the first FFmpeg command:
    once a command has been printed the run does not end through
    [exit(message)], and if it ends through [exit()] this is the final
    exit of a dry run, reached after every CSV file has been
    aggregated; the [exit()] of the range check and of the crop mismatch
    cannot follow a command. *)
Theorem failures_after_plan c :
  In (PrintCommand c) (fst (main lib w args)) ->
  (forall message,
      snd (main lib w args) <> Stopped (SysExit (Some message))) /\
  (snd (main lib w args) = Stopped (SysExit None) ->
   dry_run args = true /\
   exists tr0 vmafOut tr fileDictionary,
     before_aggregate lib w args = (tr0, Ok vmafOut) /\
     aggregate lib w args vmafOut = (tr, Ok fileDictionary)).
Proof.
  intros I.
  destruct (before_aggregate lib w args) as [tr0 [v|t]] eqn:E.
  2:{ exfalso.
      assert (M : main lib w args = (tr0, Stopped t)).
      { apply main_stops. rewrite main_body_from_aggregate.
        now apply bind_stop. }
      rewrite M in I. cbn [fst] in I.
      pose proof (before_aggregate_stop_silent _ _ E) as S.
      rewrite Forall_forall in S. apply S in I. discriminate I. }
  unfold main. rewrite main_body_from_aggregate, (bind_ok _ _ _ _ E).
  unfold from_aggregate.
  pose proof (aggregate_outcome v) as A.
  destruct (aggregate lib w args v) as [tr1 [fd|t]] eqn:G; cbn [snd] in A.
  - destruct (report_returns _ _ _ G) as (tr2 & R).
    cbn [bind]. rewrite R. cbn [bind].
    destruct (dry_run args); cbn.
    + split; [intros message; discriminate|].
      intros _. split; [reflexivity|]. now exists tr0, v, tr1, fd.
    + split; [intros message; discriminate|discriminate].
  - cbn. destruct A as [-> | ->];
      (split; [intros message; discriminate|discriminate]).
Qed.


End Report.

Lemma report_never_raises_witness :
  exists tr0 tr tr',
    main ex_lib (ex_world 12 1920 1080 1920 1080 ex_rows)
         (ex_args (Some 1) (Some 1) None true)
    = (tr0 ++ tr ++ tr', Stopped (SysExit None)).
Proof.
  destruct (report_never_raises ex_lib
              (ex_world 12 1920 1080 1920 1080 ex_rows)
              (ex_args (Some 1) (Some 1) None true)
              _ _ _ _ eq_refl eq_refl) as (tr' & _ & E).
  eexists. eexists. exists tr'. exact E.
Defined.

Lemma failures_after_plan_witness :
  let run := main ex_lib (ex_world 12 1920 1080 1920 1080 ex_rows)
                  (ex_args (Some 1) (Some 1) None false) in
  snd run = Stopped (SysExit None) /\
  forall message, snd run <> Stopped (SysExit (Some message)).
Proof.
  cbv zeta. split; [vm_compute; reflexivity|].
  eapply failures_after_plan.
  vm_compute. do 15 right. left. reflexivity.
Defined.


(** ** The 5th percentile *)

Lemma filter_length_perm {A} (p : A -> bool) l l' :
  Permutation l l' ->
  List.length (filter p l) = List.length (filter p l').
Proof.
  induction 1 as [|x l l' _ IH|x y l|l l' l'' _ IH1 _ IH2]; simpl.
  - reflexivity.
  - destruct (p x); simpl; now rewrite IH.
  - destruct (p x), (p y); reflexivity.
  - now rewrite IH1.
Qed.

(** Around an element of a sorted list: what precedes it is not above it,
    what follows it is not below it. *)
Lemma sorted_split l1 v l2 :
  StronglySorted float_le (l1 ++ v :: l2) ->
  (forall x, In x l1 -> float_le x v) /\ (forall y, In y l2 -> float_le v y).
Proof.
  intros S.
  induction l1 as [|a l1 IH]; cbn [app] in S.
  - apply StronglySorted_inv in S as [_ F]. rewrite Forall_forall in F.
    split; [intros x []|exact F].
  - apply StronglySorted_inv in S as [S F]. rewrite Forall_forall in F.
    destruct (IH S) as [A B]. split; [|exact B].
    intros x [<-|I]; [|auto]. apply F. apply in_elt.
Qed.

(** X12. When no sample of a metric is NaN, the 5th percentile printed is
    one of its samples (no interpolation); at most [floor(0.05 * N)] of
    the N samples are strictly below it and at least
    [floor(0.05 * N) + 1] are not above it; with fewer than 20 samples it
    is the smallest sample. *)
Theorem percentile_is_a_sample lib args key col samples m :
  samples <> [] ->
  Forall number samples ->
  dict_get key (qualityMetrics args) = Some m ->
  exists meanQuality p5,
    report_metric lib args key (col, samples)
    = emit (PrintSummary key meanQuality p5 (accuracy m)) /\
    In p5 samples /\
    Z.of_nat (List.length (filter (fun x => float_ltb x p5) samples))
    <= nthPercentileIndex (List.length samples) /\
    nthPercentileIndex (List.length samples) + 1
    <= Z.of_nat (List.length (filter (fun x => float_leb x p5) samples)) /\
    ((List.length samples < 20)%nat ->
     forall x, In x samples -> float_le p5 x).
Proof.
  intros NE HF K.
  destruct (report_metric_prints lib args key col samples m NE K)
    as (v & E & R).
  exists (float_div (py_sum lib (sort samples))
                    (float_of_len (List.length samples))), v.
  split; [exact R|].
  assert (P : 0 <= nthPercentileIndex (List.length samples)).
  { rewrite nthPercentileIndex_div. apply Z.div_pos; lia. }
  apply nth_error_split in E as (l1 & l2 & S & L).
  assert (Iv : In v samples).
  { apply (Permutation_in v (sort_perm samples)). rewrite S. apply in_elt. }
  assert (Nv : number v) by (rewrite Forall_forall in HF; now apply HF).
  pose proof (sort_sorted samples HF) as So. rewrite S in So.
  apply sorted_split in So as [Lo Hi].
  assert (F1 : filter (fun x => float_ltb x v) (v :: l2) = []).
  { assert (G : forall l, (forall y, In y l -> float_le v y) ->
                          filter (fun x => float_ltb x v) l = []).
    { induction l as [|y l IH]; intros H; [reflexivity|]. simpl.
      assert (Y : float_ltb y v = false).
      { apply float_leb_not_ltb, H. now left. }
      rewrite Y. apply IH. intros z I. apply H. now right. }
    apply G. intros y [<-|I]; [now apply float_leb_refl|auto]. }
  assert (F2 : filter (fun x => float_leb x v) l1 = l1).
  { clear -Lo. induction l1 as [|x l1 IH]; [reflexivity|]. simpl.
    assert (X : float_leb x v = true) by (apply Lo; now left).
    rewrite X, IH; [reflexivity|]. intros y I. apply Lo. now right. }
  repeat split.
  - exact Iv.
  - rewrite (filter_length_perm _ _ _ (Permutation_sym (sort_perm samples))).
    rewrite S, filter_app, F1, app_nil_r.
    pose proof (filter_length_le (fun x => float_ltb x v) l1). lia.
  - rewrite (filter_length_perm _ _ _ (Permutation_sym (sort_perm samples))).
    rewrite S, filter_app, F2, length_app. cbn [filter].
    rewrite (float_leb_refl v Nv). cbn [List.length]. lia.
  - intros Sm x I.
    assert (Z0 : nthPercentileIndex (List.length samples) = 0).
    { rewrite nthPercentileIndex_div. apply Z.div_small. lia. }
    rewrite Z0 in L. destruct l1; [|discriminate L].
    apply (Permutation_in x (Permutation_sym (sort_perm samples))) in I.
    rewrite S in I. destruct I as [<-|I]; [now apply float_leb_refl|auto].
Qed.

Lemma percentile_is_a_sample_witness :
  exists meanQuality p5,
    report_metric ex_lib (ex_args (Some 1) (Some 1) None false) "VMAF"
                  (1%nat, [float_of_Z 3; float_of_Z 1; float_of_Z 2])
    = emit (PrintSummary "VMAF" meanQuality p5 2) /\
    In p5 [float_of_Z 3; float_of_Z 1; float_of_Z 2].
Proof.
  assert (NE : [float_of_Z 3; float_of_Z 1; float_of_Z 2] <> [])
    by (intros X; discriminate X).
  assert (F : Forall number [float_of_Z 3; float_of_Z 1; float_of_Z 2])
    by (repeat constructor).
  destruct (percentile_is_a_sample
              ex_lib (ex_args (Some 1) (Some 1) None false) "VMAF" 1%nat
              [float_of_Z 3; float_of_Z 1; float_of_Z 2]
              {| command := EmptyString; csv_name := "vmaf";
                 csv_column := 0; accuracy := 2 |} NE F eq_refl)
    as (mq & p5 & R & I & _).
  exists mq, p5. split; assumption.
Defined.

(** ** Decimal strings and the crop string *)

Lemma int_digits_acc d :
  forall acc,
    int_digits (Z.pos acc) (NilEmpty.string_of_uint d)
    = Z.pos (Pos.of_uint_acc d acc).
Proof.
  induction d; intros acc;
    cbn [NilEmpty.string_of_uint int_digits Pos.of_uint_acc];
    try reflexivity;
    rewrite <- IHd; f_equal; unfold digit_value;
    simpl (Z.of_nat _); lia.
Qed.

Lemma int_digits_uint d :
  int_digits 0 (NilEmpty.string_of_uint d) = Z.of_N (Pos.of_uint d).
Proof.
  induction d; cbn [NilEmpty.string_of_uint int_digits Pos.of_uint];
    try reflexivity; try exact IHd;
    cbn [Z.of_N]; rewrite <- int_digits_acc; f_equal.
Qed.

Lemma all_digits_uint d : all_digits (NilEmpty.string_of_uint d) = true.
Proof. induction d; simpl; auto. Qed.

Lemma string_of_uint_nonnil d :
  d <> Decimal.Nil ->
  NilZero.string_of_uint d = NilEmpty.string_of_uint d /\
  NilEmpty.string_of_uint d <> EmptyString.
Proof. destruct d; intros N; [now elim N| | | | | | | | | |]; now split. Qed.

(** [int(str(n)) = n] for a natural number, and [str(n)] is a run of
    digits. *)
Lemma int_of_str_of_int n : 0 <= n -> int_of_str (str_of_int n) = n.
Proof.
  intros N. unfold int_of_str, str_of_int. destruct n as [|p|p]; [| |lia].
  - reflexivity.
  - cbn [Z.to_int NilZero.string_of_int].
    destruct (string_of_uint_nonnil _ (DecimalPos.Unsigned.to_uint_nonnil p))
      as [-> _].
    now rewrite int_digits_uint, DecimalPos.Unsigned.of_to.
Qed.

Lemma digit_run_str_of_int n : 0 <= n -> digit_run (str_of_int n).
Proof.
  intros N. unfold str_of_int, digit_run. destruct n as [|p|p]; [| |lia].
  - split; [discriminate|reflexivity].
  - cbn [Z.to_int NilZero.string_of_int].
    destruct (string_of_uint_nonnil _ (DecimalPos.Unsigned.to_uint_nonnil p))
      as [-> NE].
    split; [exact NE|apply all_digits_uint].
Qed.

Lemma Qle_bool_quarter a b :
  Qle_bool (inject_Z a) (inject_Z b / inject_Z 4) = (4 * a <=? b).
Proof.
  unfold Qle_bool, Qdiv, Qmult, Qinv, inject_Z. cbn [Qnum Qden].
  change (Z.pos (1 * 4)) with 4.
  apply eq_iff_eq_true. rewrite !Z.leb_le. lia.
Qed.

(** ** The quarters in binary64 *)









(** The test of line 167 on integers. *)
Lemma is_margins_iff refW refH c :
  is_margins refW refH c = true <->
  4 * c2 c <= refW /\ 4 * c3 c <= refW /\
  4 * c0 c <= refH /\ 4 * c1 c <= refH.
Proof.
  unfold is_margins. cbv zeta. rewrite !Qle_bool_quarter, !andb_true_iff.
  rewrite !Z.leb_le. tauto.
Qed.

Section CropStrings.

Variable args : Args.

Lemma pattern_match_crop_string c :
  0 <= c0 c -> 0 <= c1 c -> 0 <= c2 c -> 0 <= c3 c ->
  pattern_match (crop_string c)
  = Some (str_of_int (c0 c), str_of_int (c1 c),
          str_of_int (c2 c), str_of_int (c3 c)).
Proof.
  intros H0 H1 H2 H3. apply pattern_match_spec. exists EmptyString.
  repeat split; try (apply digit_run_str_of_int; assumption).
  unfold crop_string. now rewrite append_nil_r.
Qed.

Lemma parsed_crop_strings c :
  0 <= c0 c -> 0 <= c1 c -> 0 <= c2 c -> 0 <= c3 c ->
  parsed_crop (str_of_int (c0 c), str_of_int (c1 c),
               str_of_int (c2 c), str_of_int (c3 c)) = c.
Proof.
  intros H0 H1 H2 H3. unfold parsed_crop.
  rewrite !int_of_str_of_int by assumption. now destruct c.
Qed.

(** Lines 156-187 when the crop does not pass the test of line 167. *)
Lemma reconcile_not_margins refW refH dw dh raw g :
  crop args = Some raw -> pattern_match raw = Some g ->
  is_margins refW refH (parsed_crop g) = false ->
  resolved_crop refW refH g = parsed_crop g /\
  reconcile args refW refH dw dh
  = (check_mismatch args (parsed_crop g) dw dh ;;;
     ret (crop_string (parsed_crop g))).
Proof.
  intros HC HM IM.
  assert (RC : resolved_crop refW refH g = parsed_crop g)
    by (unfold resolved_crop; now rewrite IM).
  split; [exact RC|].
  rewrite (reconcile_matched _ _ _ _ _ _ _ HC HM).
  now rewrite IM, RC, bind_ret_l.
Qed.

(** X13. The crop string the script hands to FFmpeg reads back: for a
    crop list of natural numbers, [WIDTH:HEIGHT:X:Y] matches the crop
    pattern and its four groups convert to the same four numbers. *)
Theorem crop_string_round_trip c :
  0 <= c0 c -> 0 <= c1 c -> 0 <= c2 c -> 0 <= c3 c ->
  exists g,
    pattern_match (crop_string c) = Some g /\ parsed_crop g = c.
Proof.
  intros H0 H1 H2 H3. eexists. split.
  - now apply pattern_match_crop_string.
  - now apply parsed_crop_strings.
Qed.


(** X15. Writing the full reference frame as [--crop W:H:0:0], for a
    reference of positive height, gives the crop string of a run without
    [--crop]; the one difference is that the distorted videos are then
    compared with the frame. *)
Theorem full_frame_crop refW refH dw dh :
  0 <= refW -> 0 < refH ->
  crop args
  = Some (str_of_int refW ++ ":" ++ str_of_int refH ++ ":0:0")%string ->
  reconcile args refW refH dw dh
  = (check_mismatch args {| c0 := refW; c1 := refH; c2 := 0; c3 := 0 |}
                    dw dh ;;;
     ret (str_of_int refW ++ ":" ++ str_of_int refH ++ ":0:0")%string).
Proof.
  intros HW HH HC.
  pose proof (pattern_match_crop_string
                {| c0 := refW; c1 := refH; c2 := 0; c3 := 0 |}) as PM.
  pose proof (parsed_crop_strings
                {| c0 := refW; c1 := refH; c2 := 0; c3 := 0 |}) as PC.
  cbn [c0 c1 c2 c3] in PM, PC.
  specialize (PM HW (Z.lt_le_incl _ _ HH) (Z.le_refl 0) (Z.le_refl 0)).
  specialize (PC HW (Z.lt_le_incl _ _ HH) (Z.le_refl 0) (Z.le_refl 0)).
  destruct (reconcile_not_margins refW refH dw dh _ _ HC PM) as [_ R].
  - rewrite PC.
    destruct (is_margins refW refH _) eqn:E; [|reflexivity].
    apply is_margins_iff in E. cbn [c0 c1 c2 c3] in E. lia.
  - now rewrite R, PC.
Qed.

End CropStrings.

Lemma crop_string_round_trip_witness :
  exists g,
    pattern_match "1900:1060:10:10" = Some g /\
    parsed_crop g = {| c0 := 1900; c1 := 1060; c2 := 10; c3 := 10 |}.
Proof.
  apply (crop_string_round_trip
           {| c0 := 1900; c1 := 1060; c2 := 10; c3 := 10 |});
    simpl; lia.
Defined.


Lemma full_frame_crop_witness :
  reconcile (ex_args (Some 1) (Some 1) (Some "1920:1080:0:0") false)
            1920 1080 [1920] [1080]
  = ([], Ok "1920:1080:0:0").
Proof.
  assert (W : 0 <= 1920) by lia. assert (H : 0 < 1080) by lia.
  rewrite (full_frame_crop
             (ex_args (Some 1) (Some 1) (Some "1920:1080:0:0") false)
             1920 1080 [1920] [1080] W H eq_refl).
  reflexivity.
Defined.

(** ** Runs that pass *)

Section Passing.

Variable lib : PyLib.
Variable w : World.
Variable args : Args.






End Passing.


